(** * Connection management of neurodamus: a shallow embedding

    This development embeds [neurodamus/connection_manager.py] in Rocq:
    the per-population sorted store of connections ([ConnectionSet]), the
    streaming loader that groups a synapse-parameter table by source gid
    ([_iterate_conn_params]) and the life cycle driven by
    [ConnectionManagerBase] (create, disable / reenable, finalize).

    Python objects that are mutated and shared (a [Connection] is referenced
    from its [ConnectionSet] and from the disabled registry at once) live in
    an explicit heap; every method is a computation over the state that can
    return or raise. *)

From Stdlib Require Import ZArith Lia Bool Ascii.
From Stdlib Require Import Floats.PrimFloat.
From stdpp Require Import base list strings sorting.

Set Default Proof Using "Type".

(* ===================================================================== *)
(** ** Python computations: state and exceptions *)
(* ===================================================================== *)

(** The built-in exceptions the modelled code can raise. *)
Inductive exn : Type :=
  | TypeError        (* ordering comparison involving [None] *)
  | AttributeError   (* attribute access on [None] or on a [str] *)
  | KeyError         (* [dict[key]] on a missing key *)
  | IndexError.      (* sequence index out of range *)

Inductive outcome (A : Type) : Type :=
  | Ret (a : A)
  | Exc (e : exn).
Arguments Ret {A} a.
Arguments Exc {A} e.

(** A method run on a state [St]: it returns or raises, and in both cases
    leaves a state behind (an exception does not roll anything back). *)
Definition M (St A : Type) : Type := St -> outcome A * St.

Definition mret {St A} (a : A) : M St A := fun s => (Ret a, s).
Definition raise {St A} (e : exn) : M St A := fun s => (Exc e, s).
Definition mbind {St A B} (c : M St A) (k : A -> M St B) : M St B :=
  fun s => match c s with
           | (Ret a, s') => k a s'
           | (Exc e, s') => (Exc e, s')
           end.
Definition modify {St} (f : St -> St) : M St unit := fun s => (Ret tt, f s).
Definition lift_outcome {St A} (o : outcome A) : M St A := fun s => (o, s).

Declare Scope py_scope.
Delimit Scope py_scope with py.
Notation "x <- c ;; k" := (mbind c (fun x => k))
  (at level 100, c at next level, right associativity) : py_scope.
Notation "c ;;; k" := (mbind c (fun _ => k))
  (at level 100, right associativity) : py_scope.
Open Scope py_scope.

(** [for x in l: body(x)] *)
Fixpoint for_each {St A} (l : list A) (body : A -> M St unit) : M St unit :=
  match l with
  | [] => mret tt
  | x :: l' => body x ;;; for_each l' body
  end.

(** [for x in l: acc = f(acc, x)], starting from [acc]. *)
Fixpoint for_acc {St A B} (l : list A) (f : B -> A -> M St B) (acc : B)
    : M St B :=
  match l with
  | [] => mret acc
  | x :: l' => acc' <- f acc x ;; for_acc l' f acc'
  end.

(** [l[i]] for a non-negative index. *)
Definition list_getitem {A} (l : list A) (i : nat) : outcome A :=
  match l !! i with
  | Some x => Ret x
  | None => Exc IndexError
  end.

(** [l.insert(pos, x)] for a non-negative [pos]: past the end it appends. *)
Definition list_insert_at {A} (pos : nat) (x : A) (l : list A) : list A :=
  take pos l ++ x :: drop pos l.

(** [del l[i]] for an index in range. *)
Definition list_del {A} (i : nat) (l : list A) : list A :=
  take i l ++ drop (S i) l.

(** Python's ordering of optional integers: comparing with [None] raises. *)
Definition py_gt (a b : option Z) : outcome bool :=
  match a, b with
  | Some x, Some y => Ret (y <? x)%Z
  | _, _ => Exc TypeError
  end.

Definition py_lt (a b : option Z) : outcome bool :=
  match a, b with
  | Some x, Some y => Ret (x <? y)%Z
  | _, _ => Exc TypeError
  end.

(** [a == b] on optional integers. *)
Definition py_eq (a b : option Z) : bool :=
  match a, b with
  | Some x, Some y => (x =? y)%Z
  | None, None => true
  | _, _ => false
  end.

(* ===================================================================== *)
(** ** numpy helpers used by the module *)
(* ===================================================================== *)

(** [numpy.argmax] of a boolean array: the first index holding [True],
    and [0] when none does. *)
Fixpoint argmax_bool (l : list bool) : nat :=
  match l with
  | [] => 0
  | b :: l' => if b then 0
               else if existsb id l' then S (argmax_bool l') else 0
  end.

(** [numpy.searchsorted(a, v)] (side left) on an ascending array: the first
    index whose element is not below [v]. *)
Fixpoint searchsorted1 (a : list Z) (v : Z) : nat :=
  match a with
  | [] => 0
  | x :: a' => if (x <? v)%Z then S (searchsorted1 a' v) else 0
  end.

Definition searchsorted (a : list Z) (vs : list Z) : list nat :=
  map (searchsorted1 a) vs.

(** [numpy.delete(arr, indices, axis=0).tolist()]: the elements whose
    position is not listed; an index past the end raises. *)
Fixpoint remove_indices {A} (base : nat) (indices : list nat) (l : list A)
    : list A :=
  match l with
  | [] => []
  | x :: l' =>
      if bool_decide (base ∈ indices) then remove_indices (S base) indices l'
      else x :: remove_indices (S base) indices l'
  end.

Definition numpy_delete {A} (l : list A) (indices : list nat)
    : outcome (list A) :=
  if forallb (fun i => i <? length l) indices
  then Ret (remove_indices 0 indices l)
  else Exc IndexError.

(* ===================================================================== *)
(** ** Connection objects and the heap *)
(* ===================================================================== *)

(** A row of the synapse-parameter table a reader returns for a target
    cell.  Field 0 is the source gid. *)
Record SynapseParameters : Type := {
  sp_sgid : Z;
  sp_isec : Z;
  sp_ipt : Z;
  sp_offset : float;
  sp_synType : Z;
}.

(** The integration point [TargetManager.locationToPoint] resolves; the
    target manager is an external collaborator, so a point is kept as the
    location it was asked for. *)
Record Point : Type := {
  pt_tgid : Z;
  pt_isec : Z;
  pt_ipt : Z;
  pt_offset : float;
}.

Definition locationToPoint (tgid isec ipt : Z) (offset : float) : Point :=
  {| pt_tgid := tgid; pt_isec := isec; pt_ipt := ipt; pt_offset := offset |}.

Record Synapse : Type := {
  syn_point : Point;
  syn_params : SynapseParameters;
  syn_id : nat;
}.

(** Keyword arguments forwarded to the connection factory. *)
Record ConnKwargs : Type := {
  kw_weight_factor : option float;
  kw_synapse_mode : option Z;
}.

(** Modelled from the spec: the class [Connection] of [neurodamus/connection.py],
    which is not part of the sources at hand.  The spec's data model gives
    it a source id (absent for aggregate-source variants), a target id, the
    population pair, a weight factor, the [locked] and [disabled] flags and
    the ordered synapse placements. *)
Record Connection : Type := {
  sgid : option Z;
  tgid : Z;
  population_id : Z * Z;
  weight_factor : float;
  synapse_mode : option Z;
  locked : bool;
  disabled : bool;
  synapses : list Synapse;
}.

(** Modelled from the spec: the constructor of [Connection]
    ([Connection(sgid, tgid, src_pop_id, dst_pop_id, **kwargs)]): a fresh
    connection is neither locked nor disabled and holds no synapse; the
    weight factor defaults to 1. *)
Definition Connection_init (sgid : option Z) (tgid src_pop_id dst_pop_id : Z)
    (kwargs : ConnKwargs) : Connection :=
  {| sgid := sgid; tgid := tgid;
     population_id := (src_pop_id, dst_pop_id);
     weight_factor := default 1%float (kw_weight_factor kwargs);
     synapse_mode := kw_synapse_mode kwargs;
     locked := false; disabled := false; synapses := [] |}.

(** The factory of the test plugin ([ACellConnection] in
    [tests/test_plugin.py]): the source gid is not used as indexer and is
    set to [None]. *)
Definition ACellConnection_init (_ : option Z) (tgid src_pop_id dst_pop_id : Z)
    (kwargs : ConnKwargs) : Connection :=
  Connection_init None tgid src_pop_id dst_pop_id
    {| kw_weight_factor := kw_weight_factor kwargs; kw_synapse_mode := None |}.

Definition set_locked (b : bool) (c : Connection) : Connection :=
  {| sgid := sgid c; tgid := tgid c; population_id := population_id c;
     weight_factor := weight_factor c; synapse_mode := synapse_mode c;
     locked := b; disabled := disabled c; synapses := synapses c |}.

Definition set_disabled (b : bool) (c : Connection) : Connection :=
  {| sgid := sgid c; tgid := tgid c; population_id := population_id c;
     weight_factor := weight_factor c; synapse_mode := synapse_mode c;
     locked := locked c; disabled := b; synapses := synapses c |}.

(** Modelled from the spec: [Connection.add_synapse(point, params, syn_id)]
    appends one placement to the ordered synapse sequence. *)
Definition add_synapse (p : Point) (sp : SynapseParameters) (id : nat)
    (c : Connection) : Connection :=
  {| sgid := sgid c; tgid := tgid c; population_id := population_id c;
     weight_factor := weight_factor c; synapse_mode := synapse_mode c;
     locked := locked c; disabled := disabled c;
     synapses := synapses c ++
       [{| syn_point := p; syn_params := sp; syn_id := id |}] |}.

(** Object references.  The heap is the list of all connections ever
    created, a reference is a position in it: references are handed out in
    creation order and objects are never freed. *)
Abbreviation ref := nat.
Abbreviation Heap := (list Connection).

Definition null_connection : Connection :=
  Connection_init None 0 0 0
    {| kw_weight_factor := None; kw_synapse_mode := None |}.

(** Dereference.  Every reference the program holds is valid; the default
    only makes the function total. *)
Definition deref (h : Heap) (r : ref) : Connection :=
  default null_connection (h !! r).

(** [r.sgid] for a reference [r]. *)
Definition sgid_of (h : Heap) (r : ref) : option Z := sgid (deref h r).

Definition heap_alloc (c : Connection) (h : Heap) : ref * Heap :=
  (length h, h ++ [c]).

Definition heap_update (r : ref) (f : Connection -> Connection) (h : Heap)
    : Heap :=
  <[r := f (deref h r)]> h.

(* ===================================================================== *)
(** ** bin_search *)
(* ===================================================================== *)

(** Modelled from the spec: [bin_search(container, key, keyf)] of
    [neurodamus/utils], which is not part of the sources at hand.  The spec
    describes it as the binary search within a target's sorted sequence
    that returns the found index or else the correct insertion index: the
    lowest position whose key is not below [key].  The interval
    [low, high) is halved until it is empty; [fuel] bounds the number of
    halvings and [length container] always suffices. *)
Fixpoint bin_search_loop {A} (fuel : nat) (container : list A)
    (key : option Z) (keyf : A -> option Z) (low high : nat) : outcome nat :=
  if low <? high then
    match fuel with
    | 0 => Ret low
    | S fuel' =>
        let mid := (low + high) / 2 in
        match list_getitem container mid with
        | Exc e => Exc e
        | Ret x =>
            match py_gt key (keyf x) with
            | Exc e => Exc e
            | Ret true =>
                bin_search_loop fuel' container key keyf (S mid) high
            | Ret false =>
                bin_search_loop fuel' container key keyf low mid
            end
        end
    end
  else Ret low.

Definition bin_search {A} (container : list A) (key : option Z)
    (keyf : A -> option Z) : outcome nat :=
  bin_search_loop (length container) container key keyf 0 (length container).

(* ===================================================================== *)
(** ** ConnectionSet *)
(* ===================================================================== *)

(** A [defaultdict(list)] from target gid to a list of references, in key
    insertion order. *)
Abbreviation ConnMap := (list (Z * list ref)).

Fixpoint dd_get (m : ConnMap) (k : Z) : option (list ref) :=
  match m with
  | [] => None
  | (k', v) :: m' => if (k' =? k)%Z then Some v else dd_get m' k
  end.

(** The list stored under [k] is replaced (the model of an in-place
    mutation of that list object). *)
Fixpoint dd_set (m : ConnMap) (k : Z) (v : list ref) : ConnMap :=
  match m with
  | [] => []
  | (k', v') :: m' =>
      if (k' =? k)%Z then (k', v) :: m' else (k', v') :: dd_set m' k v
  end.

(** [m[k]]: a missing key is first inserted with an empty list. *)
Definition dd_getitem (m : ConnMap) (k : Z) : list ref * ConnMap :=
  match dd_get m k with
  | Some v => (v, m)
  | None => ([], m ++ [(k, [])])
  end.

(** The selectors of [get_connections], [delete_group] and friends:
    [None], a single [int], or an iterable of gids. *)
Inductive gid_sel : Type :=
  | AllGids
  | OneGid (g : Z)
  | Gids (gs : list Z).

Module ConnectionSet.

Record t : Type := {
  src_id : Z;
  dst_id : Z;
  src_name : option string;
  dst_name : option string;
  _conn_factory : option Z -> Z -> Z -> Z -> ConnKwargs -> Connection;
  _connections_map : ConnMap;
  _conn_count : Z;
}.

Definition set_connections_map (m : ConnMap) (cs : t) : t :=
  {| src_id := src_id cs; dst_id := dst_id cs;
     src_name := src_name cs; dst_name := dst_name cs;
     _conn_factory := _conn_factory cs;
     _connections_map := m; _conn_count := _conn_count cs |}.

Definition set_conn_count (n : Z) (cs : t) : t :=
  {| src_id := src_id cs; dst_id := dst_id cs;
     src_name := src_name cs; dst_name := dst_name cs;
     _conn_factory := _conn_factory cs;
     _connections_map := _connections_map cs; _conn_count := n |}.

Definition set_names (sn dn : option string) (cs : t) : t :=
  {| src_id := src_id cs; dst_id := dst_id cs;
     src_name := sn; dst_name := dn;
     _conn_factory := _conn_factory cs;
     _connections_map := _connections_map cs;
     _conn_count := _conn_count cs |}.

(** The methods run on the heap and the set. *)
Abbreviation St := (Heap * t)%type.

Definition get_heap : M St Heap := fun s => (Ret (fst s), s).
Definition get_self : M St t := fun s => (Ret (snd s), s).
Definition modify_self (f : t -> t) : M St unit :=
  modify (fun s => (fst s, f (snd s))).

(** [self._connections_map[tgid]] *)
Definition connections_map_getitem (tgid : Z) : M St (list ref) :=
  fun s =>
    let '(conns, m') := dd_getitem (_connections_map (snd s)) tgid in
    (Ret conns, (fst s, set_connections_map m' (snd s))).

(** In-place update of the list held under [tgid]. *)
Definition connections_map_mutate (tgid : Z) (conns : list ref)
    : M St unit :=
  modify_self (fun cs =>
    set_connections_map (dd_set (_connections_map cs) tgid conns) cs).

Definition __init__ (src_id dst_id : Z)
    (conn_factory : option Z -> Z -> Z -> Z -> ConnKwargs -> Connection)
    : t :=
  {| src_id := src_id; dst_id := dst_id;
     src_name := None; dst_name := None;
     _conn_factory := conn_factory;
     _connections_map := []; _conn_count := 0 |}.

Definition __contains__ (item : Z) (cs : t) : bool :=
  bool_decide (is_Some (dd_get (_connections_map cs) item)).

Definition get (item : Z) (cs : t) : option (list ref) :=
  dd_get (_connections_map cs) item.

Definition items (cs : t) : list (Z * list ref) := _connections_map cs.

Definition target_gids (cs : t) : list Z := (_connections_map cs).*1.

Definition all_connections (cs : t) : list ref :=
  concat (_connections_map cs).*2.

Definition count (cs : t) : Z := _conn_count cs.

Definition _find_connection (sgid : option Z) (tgid : Z) (exact : bool)
    : M St (list ref * option nat) :=
  cell_conns <- connections_map_getitem tgid ;;
  h <- get_heap ;;
  pos <- (match cell_conns with
          | [] => mret 0
          | _ => lift_outcome
                   (bin_search cell_conns sgid (sgid_of h))
          end) ;;
  if exact then
    if pos =? length cell_conns then mret (cell_conns, None)
    else
      c <- lift_outcome (list_getitem cell_conns pos) ;;
      if negb (py_eq (sgid_of h c) sgid)
      then mret (cell_conns, None)
      else mret (cell_conns, Some pos)
  else mret (cell_conns, Some pos).

Definition get_connection (sgid : option Z) (tgid : Z)
    : M St (option ref) :=
  r <- _find_connection sgid tgid true ;;
  match r with
  | (_, None) => mret None
  | (conn_lst, Some idx) =>
      c <- lift_outcome (list_getitem conn_lst idx) ;; mret (Some c)
  end.

Definition store_connection (conn : ref) : M St unit :=
  h <- get_heap ;;
  let c := deref h conn in
  r <- _find_connection (sgid c) (tgid c) false ;;
  let cell_conns := r.1 in
  let pos := default 0 r.2 in
  dup <- (match cell_conns with
          | [] => mret false
          | _ => if pos <? length cell_conns then
                   x <- lift_outcome (list_getitem cell_conns pos) ;;
                   mret (py_eq (sgid_of h x) (sgid c))
                 else mret false
          end) ;;
  if (dup : bool) then mret tt   (* logging.error, nothing stored *)
  else
    modify_self (fun cs => set_conn_count (_conn_count cs + 1) cs) ;;;
    connections_map_mutate (tgid c) (list_insert_at pos conn cell_conns).

Definition get_or_create_connection (sgid : option Z) (tgid : Z)
    (kwargs : ConnKwargs) : M St ref :=
  conns <- connections_map_getitem tgid ;;
  h <- get_heap ;;
  found <- (match last conns with
            | None => mret (inr 0)
            | Some last_conn =>
                let last_sgid := sgid_of h last_conn in
                if py_eq last_sgid sgid || py_eq last_sgid None
                then mret (inl last_conn)
                else
                  lt <- lift_outcome (py_lt last_sgid sgid) ;;
                  if (lt : bool) then mret (inr (length conns))
                  else
                    pos <- lift_outcome
                      (bin_search conns sgid (sgid_of h)) ;;
                    c <- lift_outcome (list_getitem conns pos) ;;
                    if py_eq (sgid_of h c) sgid
                    then mret (inl c)
                    else mret (inr pos)
            end) ;;
  match found with
  | inl c => mret c
  | inr pos =>
      (* Not found. Create & insert *)
      self <- get_self ;;
      cur_conn <- (fun s =>
        let '(r, h') := heap_alloc
          (_conn_factory self sgid tgid (src_id self) (dst_id self) kwargs)
          (fst s) in
        (Ret r, (h', snd s))) ;;
      connections_map_mutate tgid (list_insert_at pos cur_conn conns) ;;;
      modify_self (fun cs => set_conn_count (_conn_count cs + 1) cs) ;;;
      mret cur_conn
  end.

Definition delete (sgid : option Z) (tgid : Z) : M St unit :=
  r <- _find_connection sgid tgid true ;;
  match r with
  | (_, None) => mret tt   (* logging.error, nothing removed *)
  | (conn_lst, Some idx) =>
      modify_self (fun cs => set_conn_count (_conn_count cs - 1) cs) ;;;
      connections_map_mutate tgid (list_del idx conn_lst)
  end.

(** The lists [_find_connections] walks, named by their key:
    [values()] for [None], the one list of an [int] (fetched at once),
    and for an iterable the lists fetched one by one as the walk
    proceeds. *)
Definition post_gid_conn_lists (post_gids : gid_sel) : M St (list Z) :=
  match post_gids with
  | AllGids => self <- get_self ;; mret (target_gids self)
  | OneGid g => connections_map_getitem g ;;; mret [g]
  | Gids gs => mret gs
  end.

(** [numpy.fromiter((c.sgid for c in conns), dtype="int64")] *)
Fixpoint sgids_int64 (h : Heap) (conns : list ref) : outcome (list Z) :=
  match conns with
  | [] => Ret []
  | c :: conns' =>
      match sgid_of h c, sgids_int64 h conns' with
      | Some z, Ret zs => Ret (z :: zs)
      | None, _ => Exc TypeError
      | _, Exc e => Exc e
      end
  end.

(** One element of the sequence [_find_connections] produces: the list
    under [tgid] and the positions selected in it. *)
Definition _find_connections (pre_gids : gid_sel) (tgid : Z)
    : M St (list ref * list nat) :=
  conns <- connections_map_getitem tgid ;;
  match pre_gids with
  | AllGids => mret (conns, seq 0 (length conns))
  | _ =>
      let sgids_interest :=
        match pre_gids with OneGid g => [g] | Gids gs => gs | AllGids => [] end in
      h <- get_heap ;;
      sgids <- lift_outcome (sgids_int64 h conns) ;;
      mret (conns, searchsorted sgids sgids_interest)
  end.

Definition delete_group (post_gids pre_gids : gid_sel) : M St unit :=
  tgids <- post_gid_conn_lists post_gids ;;
  for_each tgids (fun tgid =>
    r <- _find_connections pre_gids tgid ;;
    let '(conns, indices) := r in
    conns' <- lift_outcome (numpy_delete conns indices) ;;
    connections_map_mutate tgid conns' ;;;
    modify_self (fun cs =>
      set_conn_count (_conn_count cs - Z.of_nat (length indices)) cs)).

(** [get_connections(post_gids, pre_gids)].  For groups of gids the
    method returns lazy generators; the result here is the sequence they
    produce when consumed to their end, together with the entries their
    lookups leave in the map. *)
Definition get_connections (post_gids pre_gids : gid_sel)
    : M St (list ref) :=
  match post_gids, pre_gids with
  | OneGid post, AllGids => connections_map_getitem post
  | OneGid post, OneGid pre =>
      elem <- get_connection (Some pre) post ;;
      mret (match elem with Some e => [e] | None => [] end)
  | _, _ =>
      tgids <- post_gid_conn_lists post_gids ;;
      for_acc tgids (fun found tgid =>
        conns <- connections_map_getitem tgid ;;
        h <- get_heap ;;
        match pre_gids with
        | AllGids => mret (found ++ conns)
        | OneGid pre =>
            (* a generator which is employing bin search *)
            posi <- lift_outcome (bin_search conns (Some pre) (sgid_of h)) ;;
            if posi <? length conns then
              c <- lift_outcome (list_getitem conns posi) ;;
              if py_eq (sgid_of h c) (Some pre) then mret (found ++ [c])
              else mret found
            else mret found
        | Gids pre =>
            (* generic case: looks through all conns in selected tgids *)
            mret (found ++
                  List.filter
                    (fun c => existsb (fun g => py_eq (sgid_of h c) (Some g)) pre)
                    conns)
        end) []
  end.

Definition ids_match (population_ids : option Z * option Z) (cs : t)
    : bool :=
  let '(expr_src, expr_dst) := population_ids in
  match expr_src with None => true | Some x => (x =? src_id cs)%Z end
  && match expr_dst with None => true | Some x => (x =? dst_id cs)%Z end.

Definition is_default (cs : t) : bool :=
  (src_id cs =? 0)%Z && (dst_id cs =? 0)%Z.

End ConnectionSet.

(* ===================================================================== *)
(** ** External collaborators of the managers *)
(* ===================================================================== *)

(** A cell target as the target manager hands it out. *)
Record Target : Type := {
  target_name : string;
  contains : Z -> bool;
  completeContains : Z -> bool;
}.

(** What [name and target_manager.getTarget(name)] evaluates to: [None],
    an empty (falsy) name, or the target object. *)
Inductive target_sel : Type :=
  | NoTarget
  | EmptyName
  | TargetObj (tg : Target).

(** The synapse reader: one ordered table per target cell. *)
Record SynapseReader : Type := {
  get_synapse_parameters : Z -> list SynapseParameters;
}.

(** A [Connection] block of the configuration. *)
Record ConnRule : Type := {
  Source : string;
  Destination : string;
  Weight : option float;
  SynapseID : option Z;
  Delay : option float;
  CreateMode : option string;
}.

(** The collaborators whose code lies outside this module: the target
    manager, [TargetSpec] of [io/cell_readers], the hoc [Map] accessor
    [valueOf] and [Connection.finalize] (truthy when the connection was
    instantiated in the engine). *)
Record Env : Type := {
  getTarget : string -> Target;
  TargetSpec_name : string -> option string;
  TargetSpec_match_filter :
    string -> option string -> option string -> bool -> bool;
  Map_valueOf_Weight : ConnRule -> float;
  Connection_finalize : Connection -> Z -> bool -> bool -> bool;
}.

(** What the streaming iterator yields: [(sgid, tgid, syns_params, offset)]. *)
Record conn_yield : Type := {
  y_sgid : Z;
  y_tgid : Z;
  y_syns_params : list SynapseParameters;
  y_offset : nat;
}.

(** Population selectors: [None], a source id, or a pair whose members may
    be [None]. *)
Inductive pop_sel : Type :=
  | PopAll
  | PopSrc (src : Z)
  | PopPair (src dst : option Z).

(** [MPI.allreduce(value, MPI.SUM)] as one rank sees it: its own
    contribution added to those of its peers. *)
Definition MPI_allreduce_SUM (value : Z) (peers : list Z) : Z :=
  foldr Z.add value peers.

(* ===================================================================== *)
(** ** ConnectionManagerBase *)
(* ===================================================================== *)

Module ConnectionManagerBase.

Abbreviation PopDict := (list ((Z * Z) * ConnectionSet.t)).

Record t : Type := {
  _populations : PopDict;            (* dict, in insertion order *)
  _cur_population : Z * Z;           (* the set held under that key *)
  _disabled_conns : ConnMap;         (* defaultdict(list) *)
  _synapse_reader : option SynapseReader;
  _local_gids : list Z;
  _total_connections : Z;
  _circuit_target : target_sel;
  _synapse_mode : option Z;
  conn_factory : option Z -> Z -> Z -> Z -> ConnKwargs -> Connection;
}.

(** The state a manager method runs on: the heap of connections, the
    order in which the engine instantiated connections, and the manager
    itself. *)
Record St : Type := {
  heap : Heap;
  instantiated : list ref;
  self : t;
}.

Definition set_heap (h : Heap) (w : St) : St :=
  {| heap := h; instantiated := instantiated w; self := self w |}.
Definition set_instantiated (l : list ref) (w : St) : St :=
  {| heap := heap w; instantiated := l; self := self w |}.
Definition set_self (m : t) (w : St) : St :=
  {| heap := heap w; instantiated := instantiated w; self := m |}.

Definition set_populations (p : PopDict) (m : t) : t :=
  {| _populations := p; _cur_population := _cur_population m;
     _disabled_conns := _disabled_conns m;
     _synapse_reader := _synapse_reader m; _local_gids := _local_gids m;
     _total_connections := _total_connections m;
     _circuit_target := _circuit_target m;
     _synapse_mode := _synapse_mode m; conn_factory := conn_factory m |}.
Definition set_cur_population (k : Z * Z) (m : t) : t :=
  {| _populations := _populations m; _cur_population := k;
     _disabled_conns := _disabled_conns m;
     _synapse_reader := _synapse_reader m; _local_gids := _local_gids m;
     _total_connections := _total_connections m;
     _circuit_target := _circuit_target m;
     _synapse_mode := _synapse_mode m; conn_factory := conn_factory m |}.
Definition set_disabled_conns (d : ConnMap) (m : t) : t :=
  {| _populations := _populations m; _cur_population := _cur_population m;
     _disabled_conns := d;
     _synapse_reader := _synapse_reader m; _local_gids := _local_gids m;
     _total_connections := _total_connections m;
     _circuit_target := _circuit_target m;
     _synapse_mode := _synapse_mode m; conn_factory := conn_factory m |}.
Definition set_synapse_reader (r : option SynapseReader) (m : t) : t :=
  {| _populations := _populations m; _cur_population := _cur_population m;
     _disabled_conns := _disabled_conns m;
     _synapse_reader := r; _local_gids := _local_gids m;
     _total_connections := _total_connections m;
     _circuit_target := _circuit_target m;
     _synapse_mode := _synapse_mode m; conn_factory := conn_factory m |}.
Definition set_total_connections (n : Z) (m : t) : t :=
  {| _populations := _populations m; _cur_population := _cur_population m;
     _disabled_conns := _disabled_conns m;
     _synapse_reader := _synapse_reader m; _local_gids := _local_gids m;
     _total_connections := n;
     _circuit_target := _circuit_target m;
     _synapse_mode := _synapse_mode m; conn_factory := conn_factory m |}.

Definition get_self : M St t := fun w => (Ret (self w), w).
Definition modify_self (f : t -> t) : M St unit :=
  modify (fun w => set_self (f (self w)) w).
Definition get_heap : M St Heap := fun w => (Ret (heap w), w).
Definition modify_heap (f : Heap -> Heap) : M St unit :=
  modify (fun w => set_heap (f (heap w)) w).

Definition pair_eqb (a b : Z * Z) : bool :=
  (a.1 =? b.1)%Z && (a.2 =? b.2)%Z.

Fixpoint pops_get (p : PopDict) (k : Z * Z) : option ConnectionSet.t :=
  match p with
  | [] => None
  | (k', cs) :: p' => if pair_eqb k' k then Some cs else pops_get p' k
  end.

Fixpoint pops_set (p : PopDict) (k : Z * Z) (cs : ConnectionSet.t)
    : PopDict :=
  match p with
  | [] => []
  | (k', cs') :: p' =>
      if pair_eqb k' k then (k', cs) :: p' else (k', cs') :: pops_set p' k cs
  end.

(** Run a method of the connection set registered under [k].  The sets
    are shared objects: whatever the method changes is seen through
    every reference to the set, which is what writing the result back
    under its key models. *)
Definition in_population {A} (k : Z * Z) (c : M ConnectionSet.St A)
    : M St A :=
  fun w =>
    match pops_get (_populations (self w)) k with
    | None => (Exc KeyError, w)
    | Some cs =>
        let '(o, (h', cs')) := c (heap w, cs) in
        (o, set_heap h'
              (set_self
                 (set_populations
                    (pops_set (_populations (self w)) k cs') (self w)) w))
    end.

Definition get_population (src_id dst_id : Z) : M St (Z * Z) :=
  m <- get_self ;;
  match pops_get (_populations m) (src_id, dst_id) with
  | Some _ => mret (src_id, dst_id)
  | None =>
      let pop := ConnectionSet.__init__ src_id dst_id (conn_factory m) in
      modify_self
        (set_populations (_populations m ++ [((src_id, dst_id), pop)])) ;;;
      mret (src_id, dst_id)
  end.

Definition select_populations (src_id dst_id : Z) : M St unit :=
  k <- get_population src_id dst_id ;;
  modify_self (set_cur_population k).

(** The constructor: a manager with the default population (0, 0). *)
Definition __init__ (local_gids : list Z)
    (factory : option Z -> Z -> Z -> Z -> ConnKwargs -> Connection) : t :=
  {| _populations :=
       [((0, 0)%Z, ConnectionSet.__init__ 0 0 factory)];
     _cur_population := (0, 0)%Z;
     _disabled_conns := [];
     _synapse_reader := None;
     _local_gids := local_gids;
     _total_connections := 0;
     _circuit_target := NoTarget;
     _synapse_mode := None;
     conn_factory := factory |}.

Definition selector_ids (population_ids : pop_sel)
    : option Z * option Z :=
  match population_ids with
  | PopAll => (None, None)
  | PopSrc s => (Some s, None)
  | PopPair s d => (s, d)
  end.

(** The populations a selector matches, as the keys they are registered
    under. *)
Definition find_populations (population_ids : pop_sel)
    : M St (list (Z * Z)) :=
  m <- get_self ;;
  match population_ids with
  | PopPair (Some s) (Some d) =>
      match pops_get (_populations m) (s, d) with
      | Some _ => mret [(s, d)]
      | None => raise KeyError
      end
  | _ =>
      mret (map fst
        (filter (fun kv =>
           ConnectionSet.ids_match (selector_ids population_ids) kv.2 = true)
           (_populations m)))
  end.

Definition all_connections (m : t) : list ref :=
  concat (map (fun kv => ConnectionSet.all_connections kv.2)
              (_populations m)).

Definition connection_count (m : t) : Z := _total_connections m.

(** [self._cur_population.count()] *)
Definition cur_population_count : M St Z :=
  m <- get_self ;;
  in_population (_cur_population m)
    (cs <- ConnectionSet.get_self ;; mret (ConnectionSet.count cs)).

(** [name and self._target_manager.getTarget(name)] *)
Definition resolve_target (env : Env) (name : option string) : target_sel :=
  match name with
  | None => NoTarget
  | Some EmptyString => EmptyName
  | Some n => TargetObj (getTarget env n)
  end.

(** [enumerate(l)] *)
Definition enumerate {A} (l : list A) : list (nat * A) :=
  zip (seq 0 (length l)) l.

(** Truth value of an optional integer argument. *)
Definition truthy (o : option Z) : bool :=
  match o with
  | None => false
  | Some z => negb (z =? 0)%Z
  end.

Definition _add_synapses (cur_conn : ref)
    (syns_params : list SynapseParameters)
    (syn_type_restrict : option Z) (base_id : nat) : M St unit :=
  for_each (enumerate syns_params) (fun isp =>
    let i := isp.1 in
    let syn_params := isp.2 in
    if truthy syn_type_restrict
       && negb (py_eq (Some (sp_synType syn_params)) syn_type_restrict)
    then mret tt   (* continue *)
    else
      modify_heap (fun h =>
        heap_update cur_conn
          (fun c =>
             add_synapse
               (locationToPoint (tgid c) (sp_isec syn_params)
                  (sp_ipt syn_params) (sp_offset syn_params))
               syn_params (base_id + i) c) h)).

(** The [while cur_i < syn_count] loop of [_iterate_conn_params] over the
    source-gid column of one table: the runs [(sgid, cur_i, next_i)] it
    finds, in order.  Every turn moves [cur_i] forward, so [syn_count]
    turns are enough. *)
Fixpoint sgid_runs (fuel : nat) (sgids : list Z) (cur_i : nat)
    : list (Z * nat * nat) :=
  match fuel with
  | 0 => []
  | S fuel' =>
      let syn_count := length sgids in
      if cur_i <? syn_count then
        let sgid := default 0%Z (sgids !! cur_i) in
        let next_i :=
          argmax_bool (map (fun x => negb (x =? sgid)%Z) (drop cur_i sgids))
          + cur_i in
        let next_i := if cur_i =? next_i then syn_count else next_i in
        (sgid, cur_i, next_i) :: sgid_runs fuel' sgids next_i
      else []
  end.

(** [syns_params[cur_i:next_i]] *)
Definition slice {A} (cur_i next_i : nat) (l : list A) : list A :=
  take (next_i - cur_i) (drop cur_i l).

(** The generator [_iterate_conn_params], together with the [for] loop
    that consumes it: [body] is run on every tuple the generator yields,
    at the point where it is yielded.  The count bookkeeping before the
    first and after the last tuple belongs to the generator. *)
Definition _iterate_conn_params (src_target dst_target : target_sel)
    (gids : option (list Z)) (body : conn_yield -> M St unit)
    : M St unit :=
  m0 <- get_self ;;
  let gids := default (_local_gids m0) gids in
  created_conns_0 <- cur_population_count ;;
  for_each gids (fun tgid =>
    skip <- lift_outcome
      (match dst_target with
       | NoTarget => Ret false
       | EmptyName => Exc AttributeError
       | TargetObj tg => Ret (negb (contains tg tgid))
       end) ;;
    if (skip : bool) then mret tt   (* continue *)
    else
      m <- get_self ;;
      match _synapse_reader m with
      | None => raise AttributeError
      | Some reader =>
          let syns_params := get_synapse_parameters reader tgid in
          let sgids := map sp_sgid syns_params in
          for_each (sgid_runs (length sgids) sgids 0) (fun run =>
            let '(sgid, cur_i, next_i) := run in
            pass <- lift_outcome
              (match src_target with
               | NoTarget => Ret true
               | EmptyName => Exc AttributeError
               | TargetObj tg => Ret (completeContains tg sgid)
               end) ;;
            if (pass : bool) then
              body {| y_sgid := sgid; y_tgid := tgid;
                      y_syns_params := slice cur_i next_i syns_params;
                      y_offset := cur_i |}
            else mret tt)
      end) ;;;
  count_1 <- cur_population_count ;;
  let created_conns := (count_1 - created_conns_0)%Z in
  modify_self (fun m =>
    set_total_connections (_total_connections m + created_conns)%Z m).

Definition connect_all (weight_factor : float) (only_gids : option (list Z))
    (only_sgid_in_target : bool) : M St unit :=
  m <- get_self ;;
  let conn_options :=
    {| kw_weight_factor := Some weight_factor;
       kw_synapse_mode := _synapse_mode m |} in
  let pop := _cur_population m in
  let gids := default (_local_gids m) only_gids in
  let src_target_filter :=
    if only_sgid_in_target then _circuit_target m else NoTarget in
  _iterate_conn_params src_target_filter NoTarget (Some gids) (fun y =>
    (* Create all synapses. No need to lock since the whole file is
       consumed *)
    cur_conn <- in_population pop
      (ConnectionSet.get_or_create_connection
         (Some (y_sgid y)) (y_tgid y) conn_options) ;;
    _add_synapses cur_conn (y_syns_params y) None (y_offset y)).

(** The body of the loop of [connect_group], run on one yielded tuple. *)
Definition connect_group_body (pop : Z * Z) (conn_kwargs : ConnKwargs)
    (synapse_type_restrict : option Z) (y : conn_yield) : M St unit :=
  cur_conn <- in_population pop
    (ConnectionSet.get_or_create_connection
       (Some (y_sgid y)) (y_tgid y) conn_kwargs) ;;
  h <- get_heap ;;
  if locked (deref h cur_conn) then mret tt   (* continue *)
  else
    _add_synapses cur_conn (y_syns_params y) synapse_type_restrict
      (y_offset y) ;;;
    modify_heap (heap_update cur_conn (set_locked true)).

Definition connect_group (env : Env) (src_target_name dst_target_name : string)
    (synapse_type_restrict : option Z) : M St unit :=
  m <- get_self ;;
  let conn_kwargs :=
    {| kw_weight_factor := None; kw_synapse_mode := _synapse_mode m |} in
  let pop := _cur_population m in
  let src_tname := TargetSpec_name env src_target_name in
  let dst_tname := TargetSpec_name env dst_target_name in
  let src_target := resolve_target env src_tname in
  let dst_target := resolve_target env dst_tname in
  _iterate_conn_params src_target dst_target None
    (connect_group_body pop conn_kwargs synapse_type_restrict).

(** [create_connections]; [connections] stands for
    [SimConfig.connections.values()]. *)
Definition create_connections (env : Env) (connections : list ConnRule)
    (src_target : option string) : M St unit :=
  m <- get_self ;;
  cur <- in_population (_cur_population m) ConnectionSet.get_self ;;
  let conn_src_pop := ConnectionSet.src_name cur in
  let is_base_pop := (ConnectionSet.src_id cur =? 0)%Z in
  let matching_conns :=
    List.filter
      (fun conn =>
         TargetSpec_match_filter env (Source conn) conn_src_pop src_target
           is_base_pop)
      connections in
  match matching_conns with
  | [] =>
      (* No matching Connection blocks. Loading all synapses... *)
      connect_all 1%float None false
  | _ =>
      (* if we have a single connect block with weight=0, skip synapse
         creation entirely *)
      if (length matching_conns =? 1)
         && match matching_conns with
            | conn :: _ =>
                PrimFloat.eqb (Map_valueOf_Weight env conn) 0%float
            | [] => false
            end
      then mret tt
      else
        for_each matching_conns (fun conn_conf =>
          match Delay conn_conf with
          | Some _ => mret tt   (* configuration only, not creation *)
          | None =>
              if bool_decide (CreateMode conn_conf = Some "NoCreate"%string)
              then mret tt
              else connect_group env (Source conn_conf)
                     (Destination conn_conf) (SynapseID conn_conf)
          end)
  end.

(* ------------------------------------------------------------------ *)
(* Delete, Disable / Enable                                            *)
(* ------------------------------------------------------------------ *)

Definition delete (sgid : option Z) (tgid : Z) (population_ids : pop_sel)
    : M St unit :=
  pops <- find_populations population_ids ;;
  for_each pops (fun pop =>
    in_population pop (ConnectionSet.delete sgid tgid)).

(** [self._disabled_conns[tgid]] *)
Definition disabled_conns_getitem (tgid : Z) : M St (list ref) :=
  fun w =>
    let '(conns, d') := dd_getitem (_disabled_conns (self w)) tgid in
    (Ret conns, set_self (set_disabled_conns d' (self w)) w).

(** The list under [tgid] of the disabled registry becomes [conns]. *)
Definition disabled_conns_set (tgid : Z) (conns : list ref) : M St unit :=
  modify_self (fun m =>
    set_disabled_conns (dd_set (_disabled_conns m) tgid conns) m).

(** Modelled from the spec: [Connection.disable] and [Connection.enable]
    of the class [Connection], which is not part of the sources at hand,
    set and clear the [disabled] flag of the connection.  The effect of
    [also_zero_conductance] lies in the engine and has no counterpart in
    the data model. *)
Definition Connection_disable (c : ref) (also_zero_conductance : bool)
    : M St unit :=
  modify_heap (heap_update c (set_disabled true)).

Definition Connection_enable (c : ref) : M St unit :=
  modify_heap (heap_update c (set_disabled false)).

Definition disable (sgid : option Z) (tgid : Z)
    (also_zero_conductance : bool) (population_ids : pop_sel)
    : M St unit :=
  pops <- find_populations population_ids ;;
  for_each pops (fun pop =>
    c <- in_population pop (ConnectionSet.get_connection sgid tgid) ;;
    match c with
    | None => raise AttributeError   (* None.disable(...) *)
    | Some c =>
        Connection_disable c also_zero_conductance ;;;
        conns <- disabled_conns_getitem tgid ;;
        disabled_conns_set tgid (conns ++ [c])
    end).

(** [(p.src_id, p.dst_id)] of the set registered under a key. *)
Definition pop_ids (m : t) (k : Z * Z) : Z * Z :=
  match pops_get (_populations m) k with
  | Some cs => (ConnectionSet.src_id cs, ConnectionSet.dst_id cs)
  | None => k
  end.

(** The test of the loop of [reenable]: the connection has the source gid
    asked for and belongs to one of the allowed populations. *)
Definition reenable_selects (m : t) (h : Heap) (sgid : option Z)
    (allowed_pops : list (Z * Z)) (conn : ref) : bool :=
  py_eq (sgid_of h conn) sgid
  && existsb (fun p => pair_eqb (pop_ids m p) (population_id (deref h conn)))
       allowed_pops.

Definition reenable (sgid : option Z) (tgid : Z) (population_ids : pop_sel)
    : M St unit :=
  allowed_pops <- find_populations population_ids ;;
  disabled <- disabled_conns_getitem tgid ;;
  delete_indexes <-
    for_acc (enumerate disabled) (fun delete_indexes i_conn =>
      m <- get_self ;;
      h <- get_heap ;;
      if reenable_selects m h sgid allowed_pops i_conn.2
      then Connection_enable i_conn.2 ;;; mret (delete_indexes ++ [i_conn.1])
      else mret delete_indexes) [] ;;
  disabled <- disabled_conns_getitem tgid ;;
  disabled' <- lift_outcome (numpy_delete disabled delete_indexes) ;;
  disabled_conns_set tgid disabled'.

(** [get_connections] of the manager: the connections of every matched
    population, population after population. *)
Definition get_connections (post_gids pre_gids : gid_sel)
    (population_ids : pop_sel) : M St (list ref) :=
  pops <- find_populations population_ids ;;
  for_acc pops (fun found pop =>
    conns <- in_population pop
      (ConnectionSet.get_connections post_gids pre_gids) ;;
    mret (found ++ conns)) [].

Definition reenable_all (post_gids : option (list Z)) : M St unit :=
  m <- get_self ;;
  let gids := default (_local_gids m) post_gids in
  for_each gids (fun tgid =>
    conns <- disabled_conns_getitem tgid ;;
    for_each conns Connection_enable ;;;
    (* del self._disabled_conns[tgid][:] *)
    disabled_conns_getitem tgid ;;;
    disabled_conns_set tgid []).

Definition delete_group (post_gids pre_gids : gid_sel)
    (population_ids : pop_sel) : M St unit :=
  pops <- find_populations population_ids ;;
  for_each pops (fun pop =>
    in_population pop (ConnectionSet.delete_group post_gids pre_gids)).

(** [disable_group].  The connections of a population are fetched before
    they are visited; the loop body touches no connection list. *)
Definition disable_group (post_gids pre_gids : gid_sel)
    (also_zero_conductance : bool) (population_ids : pop_sel)
    : M St unit :=
  pops <- find_populations population_ids ;;
  for_each pops (fun pop =>
    conns <- in_population pop
      (ConnectionSet.get_connections post_gids pre_gids) ;;
    for_each conns (fun conn =>
      h <- get_heap ;;
      let tgid := tgid (deref h conn) in
      disabled <- disabled_conns_getitem tgid ;;
      disabled_conns_set tgid (disabled ++ [conn]) ;;;
      Connection_disable conn also_zero_conductance)).

(** The test of the loop of [reenable_group]: the source gid of the
    connection is one of [pre_gids] and the connection belongs to one of
    the allowed populations. *)
Definition reenable_group_selects (m : t) (h : Heap) (pre_gids : list Z)
    (allowed_pops : list (Z * Z)) (conn : ref) : bool :=
  existsb (fun g => py_eq (sgid_of h conn) (Some g)) pre_gids
  && existsb (fun p => pair_eqb (pop_ids m p) (population_id (deref h conn)))
       allowed_pops.

(** [reenable_group].  [set(pre_gids)] and [for tgid in post_gids] need
    iterables: [None] and an [int] raise [TypeError] there. *)
Definition reenable_group (post_gids pre_gids : gid_sel)
    (population_ids : pop_sel) : M St unit :=
  m <- get_self ;;
  pre_gids <- lift_outcome
    (match pre_gids with
     | Gids gs => Ret gs
     | _ => Exc TypeError
     end) ;;
  allowed_pops <- find_populations population_ids ;;
  post_gids <- lift_outcome
    (match post_gids with
     | AllGids => Ret (_local_gids m)
     | Gids gs => Ret gs
     | OneGid _ => Exc TypeError
     end) ;;
  for_each post_gids (fun tgid =>
    disabled <- disabled_conns_getitem tgid ;;
    to_delete <-
      for_acc (enumerate disabled) (fun to_delete i_conn =>
        m <- get_self ;;
        h <- get_heap ;;
        if reenable_group_selects m h pre_gids allowed_pops i_conn.2
        then Connection_enable i_conn.2 ;;; mret (to_delete ++ [i_conn.1])
        else mret to_delete) [] ;;
    disabled <- disabled_conns_getitem tgid ;;
    disabled' <- lift_outcome (numpy_delete disabled to_delete) ;;
    disabled_conns_set tgid disabled').

Definition get_disabled (post_gid : option Z) : M St (list ref) :=
  match post_gid with
  | Some g => disabled_conns_getitem g
  | None => m <- get_self ;; mret (concat (_disabled_conns m).*2)
  end.

Definition _unlock_all_connections : M St unit :=
  m <- get_self ;;
  for_each (all_connections m) (fun conn =>
    modify_heap (heap_update conn (set_locked false))).

(** [for x in l: n += f(x)], starting from [n]. *)
Fixpoint sum_each {A} (l : list A) (f : A -> M St Z) (n : Z) : M St Z :=
  match l with
  | [] => mret n
  | x :: l' => k <- f x ;; sum_each l' f (n + k)%Z
  end.

(** [finalize] of the base class.  The method [_finalize_conns] is
    abstract and supplied by the subclass; [peers] are the counts the
    other ranks contribute to the collective sum. *)
Definition finalize
    (_finalize_conns : Z -> list ref -> Z -> bool -> bool -> M St Z)
    (base_seed : Z) (sim_corenrn : bool) (peers : list Z) : M St Z :=
  modify_self (set_synapse_reader None) ;;;
  m <- get_self ;;
  n_created_conns <-
    sum_each (_populations m) (fun popid_pop =>
      let pop := popid_pop.2 in
      let attach_src_cell :=
        (ConnectionSet.src_id pop =? 0)%Z
        || (bool_decide (ConnectionSet.src_name pop = None) && sim_corenrn) in
      sum_each (ConnectionSet.items pop) (fun tgid_conns =>
        _finalize_conns tgid_conns.1 tgid_conns.2 base_seed sim_corenrn
          attach_src_cell) 0%Z) 0%Z ;;
  let all_ranks_total := MPI_allreduce_SUM n_created_conns peers in
  mret all_ranks_total.

End ConnectionManagerBase.

(* ===================================================================== *)
(** ** SynapseRuleManager *)
(* ===================================================================== *)

Module SynapseRuleManager.
Import ConnectionManagerBase.

(** Finalizing the connections of one target gid: each connection of the
    list is handed to the engine, last one first. *)
Definition _finalize_conns (env : Env) (tgid : Z) (conns : list ref)
    (base_seed : Z) (sim_corenrn : bool) (attach_src_cell : bool)
    : M St Z :=
  sum_each (reverse conns) (fun conn =>
    h <- get_heap ;;
    modify (fun w => set_instantiated (instantiated w ++ [conn]) w) ;;;
    if Connection_finalize env (deref h conn) base_seed sim_corenrn
         attach_src_cell
    then mret 1%Z else mret 0%Z) 0%Z.

(** The override calls the base method and drops what it returns. *)
Definition finalize (env : Env) (base_seed : Z) (sim_corenrn : bool)
    (peers : list Z) : M St unit :=
  ConnectionManagerBase.finalize (_finalize_conns env) base_seed
    sim_corenrn peers ;;;
  mret tt.

End SynapseRuleManager.

Import ConnectionManagerBase.

(* ===================================================================== *)
(** * Specification vocabulary and example data *)
(* ===================================================================== *)

(** The keys of a container are the integers [zs], in this order. *)
Definition keys_are {A} (keyf : A -> option Z) (container : list A)
    (zs : list Z) : Prop :=
  keyf <$> container = Some <$> zs.

(** The connections of a list all have an integer source gid, and these
    gids are strictly ascending along the list. *)
Definition strictly_sorted_by_sgid (h : Heap) (conns : list ref) : Prop :=
  exists zs, keys_are (sgid_of h) conns zs /\ StronglySorted Z.lt zs.

(** Every per-target list of a map is strictly sorted by source gid. *)
Definition conn_map_sorted (h : Heap) (m : ConnMap) : Prop :=
  Forall (fun kv => strictly_sorted_by_sgid h kv.2) m.

(** The factory gives a connection the source gid it was called with, as
    the constructor of [Connection] does. *)
Definition factory_keeps_sgid
    (f : option Z -> Z -> Z -> Z -> ConnKwargs -> Connection) : Prop :=
  forall s t a b kw, sgid (f s t a b kw) = s.

(** The state [get_or_create_connection] leaves behind when it creates a
    connection at position [pos] of the list of [t]. *)
Definition created_state (h : Heap) (cs : ConnectionSet.t) (s t : Z)
    (kw : ConnKwargs) (pos : nat) : ConnectionSet.St :=
  let conns := (dd_getitem (ConnectionSet._connections_map cs) t).1 in
  let m1 := (dd_getitem (ConnectionSet._connections_map cs) t).2 in
  (h ++ [ConnectionSet._conn_factory cs (Some s) t
           (ConnectionSet.src_id cs) (ConnectionSet.dst_id cs) kw],
   ConnectionSet.set_conn_count (ConnectionSet._conn_count cs + 1)
     (ConnectionSet.set_connections_map
        (dd_set m1 t (list_insert_at pos (length h) conns))
        (ConnectionSet.set_connections_map m1 cs))).

(** A sequence of [get_or_create_connection(sgid, tgid, **kwargs)] calls
    whose results are dropped. *)
Definition get_or_create_calls (calls : list (Z * Z * ConnKwargs))
    : M ConnectionSet.St unit :=
  for_each calls (fun c =>
    ConnectionSet.get_or_create_connection (Some c.1.1) c.1.2 c.2 ;;; mret tt).

(** A call without keyword arguments. *)
Definition no_kwargs : ConnKwargs :=
  {| kw_weight_factor := None; kw_synapse_mode := None |}.

(** Outcomes can be compared, so that closed examples are decided by
    evaluation. *)
#[global] Instance exn_eq_dec : EqDecision exn.
Proof. solve_decision. Defined.
#[global] Instance outcome_eq_dec {A} `{EqDecision A} : EqDecision (outcome A).
Proof. solve_decision. Defined.

(** The set built by creating the given (source, target) pairs, in the
    order of the list, in a fresh default set. *)
Definition populate (pairs : list (Z * Z)) : ConnectionSet.St :=
  snd (get_or_create_calls (map (fun p => (p.1, p.2, no_kwargs)) pairs)
         ([], ConnectionSet.__init__ 0 0 Connection_init)).

(** The (source, target) pairs of a sequence of connections. *)
Definition conn_pairs (h : Heap) (conns : list ref) : list (option Z * Z) :=
  map (fun r => (sgid (deref h r), tgid (deref h r))) conns.

(** What [delete_group(None, [5])] is expected to do on the set built
    from [pairs]: it returns, keeps the connections whose source is not 5
    in the order they had, these being (3,1) and (7,2), and leaves a
    count of 2. *)
Definition delete_group_example_holds (pairs : list (Z * Z)) : Prop :=
  let st := populate pairs in
  let res := ConnectionSet.delete_group AllGids (Gids [5%Z]) st in
  let before := conn_pairs st.1 (ConnectionSet.all_connections st.2) in
  let after := conn_pairs res.2.1 (ConnectionSet.all_connections res.2.2) in
  res.1 = Ret tt
  /\ after = filter (fun p => p.1 <> Some 5%Z) before
  /\ after ≡ₚ [(Some 3, 1); (Some 7, 2)]%Z
  /\ ConnectionSet.count res.2.2 = 2%Z.

#[global] Instance delete_group_example_holds_dec pairs :
  Decision (delete_group_example_holds pairs).
Proof. unfold delete_group_example_holds. cbv zeta. apply _. Defined.

(** The three tuples expected from a table whose source-gid column is
    [3,3,3,5,5,7]. *)
Definition example_groups (tgid : Z) (rows : list SynapseParameters)
    : list conn_yield :=
  [ {| y_sgid := 3; y_tgid := tgid;
       y_syns_params := slice 0 3 rows; y_offset := 0 |};
    {| y_sgid := 5; y_tgid := tgid;
       y_syns_params := slice 3 5 rows; y_offset := 3 |};
    {| y_sgid := 7; y_tgid := tgid;
       y_syns_params := slice 5 6 rows; y_offset := 5 |} ].

(** The count bookkeeping [_iterate_conn_params] does once the last tuple
    has been consumed. *)
Definition iterate_epilogue (created_conns_0 : Z) : M St unit :=
  count_1 <- cur_population_count ;;
  modify_self (fun m =>
    set_total_connections
      (_total_connections m + (count_1 - created_conns_0))%Z m).

(** A table row for the source gid, with placement fields of no
    account. *)
Definition example_row (sgid : Z) : SynapseParameters :=
  {| sp_sgid := sgid; sp_isec := 0; sp_ipt := 0; sp_offset := 0%float;
     sp_synType := 0 |}.

(** A table whose source-gid column is [3,3,3,5,5,7]. *)
Definition example_rows : list SynapseParameters :=
  map example_row [3; 3; 3; 5; 5; 7]%Z.

(** A connection is stored in a set for the pair (s, t). *)
Definition holds_connection (h : Heap) (cs : ConnectionSet.t) (s t : Z)
    (r : ref) : Prop :=
  exists conns,
    dd_get (ConnectionSet._connections_map cs) t = Some conns
    /\ r ∈ conns /\ sgid_of h r = Some s.

(** No connection of a set has the pair (s, t). *)
Definition lacks_connection (h : Heap) (cs : ConnectionSet.t) (s t : Z)
    : Prop :=
  forall conns r,
    dd_get (ConnectionSet._connections_map cs) t = Some conns ->
    r ∈ conns -> sgid_of h r <> Some s.

(** Two heaps that differ at most in the [disabled] flags of their
    connections. *)
Definition same_but_flags (h h' : Heap) : Prop :=
  forall i, set_disabled false <$> (h' !! i) = set_disabled false <$> (h !! i).

(** [registry[t].append(r)] on the disabled registry. *)
Definition registry_append (t : Z) (r : ref) (reg : ConnMap) : ConnMap :=
  dd_set (dd_getitem reg t).2 t ((dd_getitem reg t).1 ++ [r]).

(** What disabling one connection does to the state: the flag is set and
    the connection is appended to the registry. *)
Definition disable_effect (t : Z) (w : St) (r : ref) : St :=
  {| heap := heap_update r (set_disabled true) (heap w);
     instantiated := instantiated w;
     self := set_disabled_conns
               (registry_append t r (_disabled_conns (self w))) (self w) |}.

(** The connection of (s, t) that each population of a list holds. *)
Definition populations_hold (w : St) (s t : Z)
    (targets : list ((Z * Z) * ref)) : Prop :=
  Forall (fun kr =>
    exists cs,
      pops_get (_populations (self w)) kr.1 = Some cs
      /\ conn_map_sorted (heap w) (ConnectionSet._connections_map cs)
      /\ holds_connection (heap w) cs s t kr.2
      /\ population_id (deref (heap w) kr.2)
         = (ConnectionSet.src_id cs, ConnectionSet.dst_id cs)) targets.

(** The connections registered as disabled for a target gid. *)
Definition disabled_of (m : t) (tgid : Z) : list ref :=
  default [] (dd_get (_disabled_conns m) tgid).

(** A computation keeps [P]: whether it returns or raises, the state it
    leaves satisfies [P] if the state it started from did. *)
Definition keeps {St} (P : St -> Prop) {A} (c : M St A) : Prop :=
  forall s, P s -> P (c s).2.

(** What [connect_group] guarantees about the heap [h] it leaves, given
    the heap [h0] it started from: a connection locked at the start is
    the same object still, and every connection that was changed or
    created is locked. *)
Definition lock_respected (h0 h : Heap) : Prop :=
  (forall r c, h0 !! r = Some c -> locked c = true -> h !! r = Some c)
  /\ (forall r c', h !! r = Some c' -> h0 !! r = Some c' \/ locked c' = true).

(** [attach_src_cell] as [finalize] computes it for a population. *)
Definition attach_src_cell_of (sim_corenrn : bool) (pop : ConnectionSet.t)
    : bool :=
  (ConnectionSet.src_id pop =? 0)%Z
  || (bool_decide (ConnectionSet.src_name pop = None) && sim_corenrn).

(** The order in which [finalize] hands connections to the engine:
    population after population, target after target, and the list of a
    target from its last element to its first. *)
Definition finalize_order (m : t) : list ref :=
  concat (map (fun popid_pop =>
            concat (map (fun tgid_conns => reverse tgid_conns.2)
                      (ConnectionSet.items popid_pop.2)))
         (_populations m)).

(** The number of connections of a list the engine instantiates. *)
Definition created_among (env : Env) (h : Heap) (base_seed : Z)
    (sim_corenrn attach : bool) (conns : list ref) : Z :=
  foldr (fun c n =>
           ((if Connection_finalize env (deref h c) base_seed sim_corenrn attach
             then 1 else 0) + n)%Z) 0%Z conns.

(** The count [finalize] accumulates on one rank. *)
Definition local_created (env : Env) (h : Heap) (base_seed : Z)
    (sim_corenrn : bool) (m : t) : Z :=
  foldr (fun popid_pop n =>
           (foldr (fun tgid_conns k =>
                     (created_among env h base_seed sim_corenrn
                        (attach_src_cell_of sim_corenrn popid_pop.2)
                        tgid_conns.2 + k)%Z)
              0%Z (ConnectionSet.items popid_pop.2) + n)%Z)
    0%Z (_populations m).

(** The connections of the given (source, target) pairs created, in the
    order of the list, in the default population of a fresh manager. *)
Definition manager_with (pairs : list (Z * Z)) : St :=
  snd (for_each pairs (fun p =>
         in_population (0, 0)%Z
           (ConnectionSet.get_or_create_connection (Some p.1) p.2 no_kwargs) ;;;
         mret tt)
       {| heap := []; instantiated := [];
          self := __init__ [] Connection_init |}).

(** What a rank contributes to the collective sum of [finalize]. *)
Definition rank_contribution (env : Env) (base_seed : Z) (sim_corenrn : bool)
    (w : St) : Z :=
  match fst (finalize (SynapseRuleManager._finalize_conns env) base_seed
               sim_corenrn [] w) with
  | Ret n => n
  | Exc _ => 0
  end.

(** [finalize] run on every rank: each one reduces its count with those
    of the others. *)
Definition finalize_on_ranks (env : Env) (base_seed : Z) (sim_corenrn : bool)
    (ranks : list St) : list (outcome Z) :=
  let counts := map (rank_contribution env base_seed sim_corenrn) ranks in
  imap (fun i w =>
          fst (finalize (SynapseRuleManager._finalize_conns env) base_seed
                 sim_corenrn (base.delete i counts) w)) ranks.

(** Collaborators for the examples: every connection is instantiated. *)
Definition example_env : Env :=
  {| getTarget := fun name =>
       {| target_name := name; contains := fun _ => true;
          completeContains := fun _ => true |};
     TargetSpec_name := fun name => Some name;
     TargetSpec_match_filter := fun _ _ _ _ => true;
     Map_valueOf_Weight := fun rule => default 0%float (Weight rule);
     Connection_finalize := fun _ _ _ _ => true |}.

(** Connections in creation order: references are handed out in the
    order the connections are created. *)
Definition creation_order (conns : list ref) : list ref :=
  merge_sort Nat.le conns.

(** A reader with one table, for target gid 1, whose source-gid column is
    [3,3,3,5,5,7]. *)
Definition example_reader : SynapseReader :=
  {| get_synapse_parameters := fun tgid =>
       if (tgid =? 1)%Z then example_rows else [] |}.

(** A manager that owns the cell 1 and has opened [example_reader]. *)
Definition example_manager : St :=
  {| heap := []; instantiated := [];
     self := set_synapse_reader (Some example_reader)
               (__init__ [1%Z] Connection_init) |}.

(** [example_manager] after [connect_all]. *)
Definition loaded_manager : St :=
  snd (connect_all 1%float None false example_manager).

(** A name of the form [population:target], split at the colon. *)
Fixpoint split_colon (s : string) : option (string * string) :=
  match s with
  | EmptyString => None
  | String c s' =>
      if Ascii.eqb c ":"%char then Some (EmptyString, s')
      else match split_colon s' with
           | Some (p, n) => Some (String c p, n)
           | None => None
           end
  end.

(** An instance of [TargetSpec] for the examples: a rule source matches a
    population when it names that population, or names none while the
    population is the base one. *)
Definition example_match_filter (src : string) (pop_name : option string)
    (target_name : option string) (is_base_population : bool) : bool :=
  let spec :=
    match split_colon src with
    | Some (p, n) => (Some p, n)
    | None => (None, src)
    end in
  (bool_decide (spec.1 = pop_name)
   || (is_base_population && bool_decide (spec.1 = None)))
  && (bool_decide (target_name = None)
      || bool_decide (target_name = Some spec.2)).

(** Collaborators for the rule examples: target names may carry a
    population prefix. *)
Definition rules_env : Env :=
  {| getTarget := getTarget example_env;
     TargetSpec_name := fun name =>
       match split_colon name with
       | Some (_, n) => Some n
       | None => Some name
       end;
     TargetSpec_match_filter := example_match_filter;
     Map_valueOf_Weight := Map_valueOf_Weight example_env;
     Connection_finalize := Connection_finalize example_env |}.

(** A rule with a weight and nothing else. *)
Definition example_rule (src dst : string) (weight : float) : ConnRule :=
  {| Source := src; Destination := dst; Weight := Some weight;
     SynapseID := None; Delay := None; CreateMode := None |}.

(** The rules [(All -> All, 2.0); (A -> B, 0.0)]. *)
Definition example_rules : list ConnRule :=
  [example_rule "All" "All" 2%float; example_rule "A:All" "B:All" 0%float].

(** The connection set of a projection whose source population is [A]. *)
Definition projection_A : ConnectionSet.t :=
  ConnectionSet.set_names (Some "A"%string) (Some "B"%string)
    (ConnectionSet.__init__ 5 0 Connection_init).

(** [example_manager] with the projection [A] selected. *)
Definition projection_manager : St :=
  snd (in_population (5, 0)%Z
         (ConnectionSet.modify_self
            (ConnectionSet.set_names (Some "A"%string) (Some "B"%string)))
         (snd (select_populations 5 0 example_manager))).

(* ===================================================================== *)
(** * Properties *)
(* ===================================================================== *)

(** ** Sorted keys and the binary search *)

Section bin_search_facts.
Context {A : Type} (keyf : A -> option Z).

Lemma keys_are_length container zs :
  keys_are keyf container zs -> length container = length zs.
Proof.
  intros H. apply (f_equal length) in H. by rewrite !length_fmap in H.
Qed.

Lemma keys_are_lookup container zs i c :
  keys_are keyf container zs -> container !! i = Some c ->
  exists z, zs !! i = Some z /\ keyf c = Some z.
Proof.
  intros H Hc. apply (f_equal (fun l => l !! i)) in H.
  rewrite !list_lookup_fmap, Hc in H. simpl in H.
  destruct (zs !! i) as [z|]; simplify_eq/=. eauto.
Qed.

Lemma mid_bounds low high :
  low < high -> low <= (low + high) / 2 < high.
Proof.
  intros H. split.
  - apply Nat.div_le_lower_bound; lia.
  - apply Nat.Div0.div_lt_upper_bound; lia.
Qed.

Lemma sorted_below_mid zs mid x key :
  StronglySorted Z.lt zs -> zs !! mid = Some x -> (x < key)%Z ->
  Forall (fun z => (z < key)%Z) (take (S mid) zs).
Proof.
  intros Hs Hx Hlt.
  rewrite <- (take_drop_middle zs mid x Hx) in Hs.
  rewrite (take_S_r zs mid x Hx).
  apply Forall_app. split; [|by constructor].
  apply Forall_forall. intros y Hy.
  assert (y < x)%Z; [|lia].
  eapply (StronglySorted_app_1_elem_of Z.lt); [exact Hs|exact Hy|left].
Qed.

Lemma sorted_above_mid zs mid x key :
  StronglySorted Z.lt zs -> zs !! mid = Some x -> (key <= x)%Z ->
  Forall (fun z => (key <= z)%Z) (drop mid zs).
Proof.
  intros Hs Hx Hle.
  rewrite <- (take_drop_middle zs mid x Hx) in Hs.
  apply StronglySorted_app_1_r in Hs.
  rewrite (drop_S zs x mid Hx).
  inversion Hs as [|? ? ? Hall]; subst. constructor; [done|].
  eapply Forall_impl; [exact Hall|]. simpl. intros. lia.
Qed.

(** The loop keeps every key left of [low] below [key] and every key from
    [high] on at or above it, and stops where both meet. *)
Lemma bin_search_loop_spec container zs key :
  keys_are keyf container zs -> StronglySorted Z.lt zs ->
  forall fuel low high,
    low <= high <= length zs -> high - low <= fuel ->
    Forall (fun z => (z < key)%Z) (take low zs) ->
    Forall (fun z => (key <= z)%Z) (drop high zs) ->
    exists pos,
      bin_search_loop fuel container (Some key) keyf low high = Ret pos
      /\ pos <= length zs
      /\ Forall (fun z => (z < key)%Z) (take pos zs)
      /\ Forall (fun z => (key <= z)%Z) (drop pos zs).
Proof.
  intros Hk Hs. induction fuel as [|fuel IH]; intros low high Hb Hf Hlo Hhi.
  - assert (low = high) by lia. subst. simpl.
    rewrite Nat.ltb_irrefl.
    exists high; repeat split; auto; lia.
  - cbn [bin_search_loop]. destruct (low <? high) eqn:Hlt.
    + apply Nat.ltb_lt in Hlt. pose proof (mid_bounds low high Hlt) as Hm.
      set (mid := (low + high) / 2) in *.
      destruct (lookup_lt_is_Some_2 container mid) as [c Hc].
      { rewrite (keys_are_length _ _ Hk). lia. }
      unfold list_getitem. rewrite Hc.
      destruct (keys_are_lookup _ _ _ _ Hk Hc) as (x & Hx & Hkx).
      rewrite Hkx. cbn [py_gt].
      destruct (x <? key)%Z eqn:Hcmp.
      * apply Z.ltb_lt in Hcmp.
        apply IH; [lia|lia| |done].
        by eapply sorted_below_mid.
      * apply Z.ltb_ge in Hcmp.
        apply IH; [lia|lia|done|].
        by eapply sorted_above_mid.
    + apply Nat.ltb_ge in Hlt. assert (low = high) by lia. subst.
      exists high. repeat split; auto; lia.
Qed.

(** [bin_search] returns, and returns the insertion position. *)
Lemma bin_search_spec container zs key :
  keys_are keyf container zs -> StronglySorted Z.lt zs ->
  exists pos,
    bin_search container (Some key) keyf = Ret pos
    /\ pos <= length zs
    /\ Forall (fun z => (z < key)%Z) (take pos zs)
    /\ Forall (fun z => (key <= z)%Z) (drop pos zs).
Proof.
  intros Hk Hs. unfold bin_search. rewrite (keys_are_length _ _ Hk).
  apply bin_search_loop_spec; auto; try lia.
  rewrite drop_all. constructor.
Qed.
End bin_search_facts.

(** ** Strictly sorted connection lists *)

Lemma sorted_lookup_lt zs i j a b :
  StronglySorted Z.lt zs -> i < j -> zs !! i = Some a -> zs !! j = Some b ->
  (a < b)%Z.
Proof.
  intros Hs Hij Ha Hb.
  rewrite <- (take_drop_middle zs j b Hb) in Hs.
  eapply (StronglySorted_app_1_elem_of Z.lt); [exact Hs| |left].
  apply list_elem_of_lookup. exists i. by rewrite lookup_take_lt.
Qed.

Lemma sorted_lookup_inj zs i j a :
  StronglySorted Z.lt zs -> zs !! i = Some a -> zs !! j = Some a -> i = j.
Proof.
  intros Hs Hi Hj.
  destruct (Nat.lt_trichotomy i j) as [H|[H|H]]; [|done|].
  - pose proof (sorted_lookup_lt _ _ _ _ _ Hs H Hi Hj). lia.
  - pose proof (sorted_lookup_lt _ _ _ _ _ Hs H Hj Hi). lia.
Qed.

Lemma sorted_NoDup zs : StronglySorted Z.lt zs -> NoDup zs.
Proof.
  intros Hs. apply NoDup_alt. intros i j x Hi Hj.
  by eapply sorted_lookup_inj.
Qed.

Lemma Forall_drop_lookup {A} (P : A -> Prop) (l : list A) n i x :
  Forall P (drop n l) -> l !! i = Some x -> n <= i -> P x.
Proof.
  intros HF Hx Hi. eapply (Forall_lookup_1 _ _ (i - n)); [exact HF|].
  rewrite lookup_drop. by replace (n + (i - n)) with i by lia.
Qed.

Lemma sorted_insert zs pos s :
  StronglySorted Z.lt zs ->
  Forall (fun z => (z < s)%Z) (take pos zs) ->
  Forall (fun z => (s < z)%Z) (drop pos zs) ->
  StronglySorted Z.lt (take pos zs ++ s :: drop pos zs).
Proof.
  intros Hs Hlo Hhi. rewrite <- (take_drop pos zs) in Hs.
  apply StronglySorted_app in Hs as (Hx & H1 & H2).
  apply StronglySorted_app. split_and!; [|done|].
  - intros x1 x2 Hx1 Hx2. apply elem_of_cons in Hx2 as [->|Hx2].
    + by eapply Forall_forall in Hlo.
    + by apply Hx.
  - by constructor.
Qed.

Lemma keys_are_insert {A} (f : A -> option Z) container zs pos x s :
  keys_are f container zs -> f x = Some s ->
  keys_are f (list_insert_at pos x container)
    (take pos zs ++ s :: drop pos zs).
Proof.
  unfold keys_are, list_insert_at. intros Hk Hx.
  rewrite !fmap_app, !fmap_cons, !fmap_take, !fmap_drop, Hk, Hx. done.
Qed.

(** *** The heap only grows *)

Lemma sgid_of_valid h r z : sgid_of h r = Some z -> r < length h.
Proof.
  unfold sgid_of, deref. intros H.
  destruct (h !! r) eqn:E; [by eapply lookup_lt_Some|]. done.
Qed.

Lemma deref_alloc h c r : r < length h -> deref (h ++ [c]) r = deref h r.
Proof. intros H. unfold deref. by rewrite lookup_app_l. Qed.

Lemma deref_new h c : deref (h ++ [c]) (length h) = c.
Proof. unfold deref. by rewrite list_lookup_middle. Qed.

Lemma sgid_of_alloc h c r z :
  sgid_of h r = Some z -> sgid_of (h ++ [c]) r = Some z.
Proof.
  intros H. pose proof (sgid_of_valid _ _ _ H).
  unfold sgid_of in *. by rewrite deref_alloc.
Qed.

Lemma keys_are_alloc h c conns zs :
  keys_are (sgid_of h) conns zs -> keys_are (sgid_of (h ++ [c])) conns zs.
Proof.
  unfold keys_are. revert zs. induction conns as [|r conns IH]; intros zs H.
  - done.
  - destruct zs as [|z zs]; simplify_eq/=.
    f_equal; [by apply sgid_of_alloc|by apply IH].
Qed.

Lemma strictly_sorted_alloc h c conns :
  strictly_sorted_by_sgid h conns -> strictly_sorted_by_sgid (h ++ [c]) conns.
Proof. intros (zs & Hk & Hs). exists zs. eauto using keys_are_alloc. Qed.

Lemma conn_map_sorted_alloc h c m :
  conn_map_sorted h m -> conn_map_sorted (h ++ [c]) m.
Proof.
  unfold conn_map_sorted. intros H. eapply Forall_impl; [exact H|].
  eauto using strictly_sorted_alloc.
Qed.

(** *** The dictionary *)

Lemma dd_get_elem_of m k v : dd_get m k = Some v -> exists k', (k', v) ∈ m.
Proof.
  induction m as [|[k' v'] m IH]; simpl; [done|].
  destruct (k' =? k)%Z.
  - intros [= ->]. exists k'. left.
  - intros H. destruct (IH H) as [k'' ?]. exists k''. by right.
Qed.

Lemma conn_map_sorted_get h m k v :
  conn_map_sorted h m -> dd_get m k = Some v -> strictly_sorted_by_sgid h v.
Proof.
  intros HF Hg. destruct (dd_get_elem_of _ _ _ Hg) as [k' Hin].
  by eapply Forall_forall in HF; [|exact Hin].
Qed.

Lemma conn_map_sorted_set h m k v :
  conn_map_sorted h m -> strictly_sorted_by_sgid h v ->
  conn_map_sorted h (dd_set m k v).
Proof.
  unfold conn_map_sorted. intros HF Hv.
  induction m as [|[k' v'] m IH]; simpl; [done|].
  inversion HF; subst. destruct (k' =? k)%Z; constructor; auto.
Qed.

Lemma dd_get_set m k v :
  is_Some (dd_get m k) -> dd_get (dd_set m k v) k = Some v.
Proof.
  induction m as [|[k' v'] m IH]; simpl; [by intros [? ?]|].
  destruct (k' =? k)%Z eqn:E; simpl; rewrite E; auto.
Qed.

Lemma dd_get_app_None m k m' :
  dd_get m k = None -> dd_get (m ++ m') k = dd_get m' k.
Proof.
  induction m as [|[k0 v0] m IH]; simpl; [done|].
  destruct (k0 =? k)%Z; [done|auto].
Qed.

Lemma dd_getitem_get m k :
  dd_get (dd_getitem m k).2 k = Some (dd_getitem m k).1.
Proof.
  unfold dd_getitem. destruct (dd_get m k) eqn:E; simpl; [done|].
  rewrite dd_get_app_None by done. simpl. by rewrite Z.eqb_refl.
Qed.

Lemma conn_map_sorted_getitem h m k :
  conn_map_sorted h m ->
  conn_map_sorted h (dd_getitem m k).2
  /\ strictly_sorted_by_sgid h (dd_getitem m k).1.
Proof.
  intros HF. unfold dd_getitem. destruct (dd_get m k) eqn:E; simpl.
  - split; [done|]. by eapply conn_map_sorted_get.
  - assert (strictly_sorted_by_sgid h []) by (exists []; split; [done|constructor]).
    split; [|done]. apply Forall_app. split; [done|]. by constructor.
Qed.

(** ** get_or_create_connection *)

Ltac mstep H :=
  cbv beta iota delta [mbind lift_outcome mret raise] in H; cbn [fst snd] in H.

Lemma keys_are_last {A} (f : A -> option Z) container zs l :
  keys_are f container zs -> last container = Some l ->
  exists zl, last zs = Some zl /\ f l = Some zl.
Proof.
  intros Hk Hl. rewrite last_lookup in Hl.
  destruct (keys_are_lookup _ _ _ _ _ Hk Hl) as (z & Hz & Hf).
  exists z. split; [|done].
  by rewrite last_lookup, <- (keys_are_length _ _ _ Hk).
Qed.

Lemma keys_are_elem_of {A} (f : A -> option Z) container zs r s :
  keys_are f container zs -> r ∈ container -> f r = Some s -> s ∈ zs.
Proof.
  intros Hk Hr Hf. apply list_elem_of_lookup in Hr as [i Hi].
  destruct (keys_are_lookup _ _ _ _ _ Hk Hi) as (z & Hz & Hfz).
  simplify_eq. apply list_elem_of_lookup. eauto.
Qed.

Lemma sorted_le_last zs zl z :
  StronglySorted Z.lt zs -> last zs = Some zl -> z ∈ zs -> (z <= zl)%Z.
Proof.
  intros Hs Hl Hz. apply last_Some in Hl as [zs' ->].
  apply elem_of_app in Hz as [Hz|Hz].
  - assert (z < zl)%Z; [|lia].
    eapply (StronglySorted_app_1_elem_of Z.lt); [exact Hs|exact Hz|left].
  - apply list_elem_of_singleton in Hz. lia.
Qed.

Lemma get_or_create_connection_spec h cs s t kw :
  conn_map_sorted h (ConnectionSet._connections_map cs) ->
  let conns := (dd_getitem (ConnectionSet._connections_map cs) t).1 in
  let m1 := (dd_getitem (ConnectionSet._connections_map cs) t).2 in
  (exists r,
      r ∈ conns /\ sgid_of h r = Some s /\
      ConnectionSet.get_or_create_connection (Some s) t kw (h, cs)
      = (Ret r, (h, ConnectionSet.set_connections_map m1 cs)))
  \/ (exists pos zs,
        keys_are (sgid_of h) conns zs /\ (s ∉ zs) /\
        StronglySorted Z.lt (take pos zs ++ s :: drop pos zs) /\
        ConnectionSet.get_or_create_connection (Some s) t kw (h, cs)
        = (Ret (length h), created_state h cs s t kw pos)).
Proof.
  intros Hsorted conns m1.
  destruct (conn_map_sorted_getitem h _ t Hsorted) as [_ (zs & Hk & Hs)].
  fold conns in Hk.
  remember (ConnectionSet.get_or_create_connection (Some s) t kw (h, cs))
    as res eqn:Hres.
  unfold ConnectionSet.get_or_create_connection,
    ConnectionSet.connections_map_getitem in Hres.
  unfold ConnectionSet.get_heap in Hres. mstep Hres.
  rewrite (surjective_pairing (dd_getitem _ t)) in Hres.
  fold conns m1 in Hres. mstep Hres.
  destruct (last conns) as [l|] eqn:Hlast.
  - destruct (keys_are_last _ _ _ _ Hk Hlast) as (zl & Hzl & Hfl).
    assert (Hlin : l ∈ conns).
    { apply last_Some in Hlast as [? ->]. apply elem_of_app. right. left. }
    rewrite Hfl in Hres. cbn [py_eq py_lt orb] in Hres.
    destruct (zl =? s)%Z eqn:Heq; cbn [orb] in Hres; mstep Hres.
    { apply Z.eqb_eq in Heq. subst zl. left. exists l. by split_and!. }
    apply Z.eqb_neq in Heq.
    destruct (zl <? s)%Z eqn:Hlt; mstep Hres.
    { apply Z.ltb_lt in Hlt. right. exists (length conns), zs.
      assert (Hall : Forall (fun z => (z < s)%Z) zs).
      { apply Forall_forall. intros z Hz.
        pose proof (sorted_le_last _ _ _ Hs Hzl Hz). lia. }
      split_and!; [done| | |by subst res].
      - intros Hin. eapply Forall_forall in Hall; [|exact Hin]. lia.
      - rewrite (keys_are_length _ _ _ Hk).
        rewrite firstn_all, drop_all.
        apply sorted_insert with (pos := length zs) (s := s) in Hs.
        + by rewrite firstn_all, drop_all in Hs.
        + by rewrite firstn_all.
        + rewrite drop_all. constructor. }
    apply Z.ltb_ge in Hlt.
    destruct (bin_search_spec (sgid_of h) conns zs s Hk Hs)
      as (pos & Hbs & Hpos & Hlo & Hhi).
    rewrite Hbs in Hres. mstep Hres.
    assert (Hposlt : pos < length zs).
    { destruct (decide (pos < length zs)); [done|].
      assert (pos = length zs) by lia. subst pos.
      rewrite firstn_all in Hlo.
      assert (zl ∈ zs).
      { apply last_Some in Hzl as [? ->]. apply elem_of_app. right. left. }
      eapply Forall_forall in Hlo; [|done]. lia. }
    destruct (lookup_lt_is_Some_2 conns pos) as [c Hc].
    { by rewrite (keys_are_length _ _ _ Hk). }
    destruct (keys_are_lookup _ _ _ _ _ Hk Hc) as (y & Hy & Hfy).
    unfold list_getitem in Hres. rewrite Hc in Hres. mstep Hres.
    rewrite Hfy in Hres. cbn [py_eq] in Hres.
    assert (Hsy : (s <= y)%Z).
    { eapply Forall_drop_lookup; [exact Hhi|exact Hy|lia]. }
    destruct (y =? s)%Z eqn:Hys; mstep Hres.
    { apply Z.eqb_eq in Hys. subst y. left. exists c.
      split_and!; [|done|by subst res]. apply list_elem_of_lookup. eauto. }
    apply Z.eqb_neq in Hys. right. exists pos, zs.
    assert (Hhi' : Forall (fun z => (s < z)%Z) (drop pos zs)).
    { apply Forall_lookup. intros i z Hz. rewrite lookup_drop in Hz.
      destruct i as [|i].
      - rewrite Nat.add_0_r in Hz. simplify_eq. lia.
      - assert (y < z)%Z; [|lia].
        eapply (sorted_lookup_lt zs pos (pos + S i)); eauto; lia. }
    split_and!; [done| |by apply sorted_insert|by subst res].
    intros Hin. rewrite <- (take_drop pos zs) in Hin.
    apply elem_of_app in Hin as [Hin|Hin].
    + eapply Forall_forall in Hlo; [|exact Hin]. lia.
    + eapply Forall_forall in Hhi'; [|exact Hin]. lia.
  - right. exists 0, zs.
    apply last_None in Hlast. rewrite Hlast in Hk. destruct zs; [|done].
    split_and!; [by rewrite Hlast|apply not_elem_of_nil| |by subst res].
    simpl. repeat constructor.
Qed.

Lemma sorted_keys_inj {A} (f : A -> option Z) container zs r r' s :
  keys_are f container zs -> StronglySorted Z.lt zs ->
  r ∈ container -> r' ∈ container -> f r = Some s -> f r' = Some s ->
  r = r'.
Proof.
  intros Hk Hs Hr Hr' Hf Hf'.
  apply list_elem_of_lookup in Hr as [i Hi].
  apply list_elem_of_lookup in Hr' as [j Hj].
  destruct (keys_are_lookup _ _ _ _ _ Hk Hi) as (z & Hz & Hfz).
  destruct (keys_are_lookup _ _ _ _ _ Hk Hj) as (z' & Hz' & Hfz').
  simplify_eq.
  assert (i = j) by (by eapply sorted_lookup_inj). by simplify_eq.
Qed.

Lemma set_connections_map_id cs :
  ConnectionSet.set_connections_map (ConnectionSet._connections_map cs) cs = cs.
Proof. by destruct cs. Qed.

Lemma dd_getitem_Some m k v : dd_get m k = Some v -> dd_getitem m k = (v, m).
Proof. unfold dd_getitem. by intros ->. Qed.

(** A pair that is already stored is returned as it is, and nothing
    changes. *)
Lemma get_or_create_connection_found h cs s t kw conns r :
  conn_map_sorted h (ConnectionSet._connections_map cs) ->
  dd_get (ConnectionSet._connections_map cs) t = Some conns ->
  r ∈ conns -> sgid_of h r = Some s ->
  ConnectionSet.get_or_create_connection (Some s) t kw (h, cs)
  = (Ret r, (h, cs)).
Proof.
  intros Hsorted Hget Hr Hsg.
  destruct (conn_map_sorted_get _ _ _ _ Hsorted Hget) as (zs & Hk & Hs).
  pose proof (get_or_create_connection_spec h cs s t kw Hsorted) as Hspec.
  rewrite (dd_getitem_Some _ _ _ Hget) in Hspec. cbn [fst snd] in Hspec.
  rewrite set_connections_map_id in Hspec.
  destruct Hspec as [(r' & Hr' & Hsg' & ->)|(pos & zs' & Hk' & Hnot & _)].
  - by rewrite (sorted_keys_inj _ _ _ _ _ _ Hk Hs Hr' Hr Hsg' Hsg).
  - destruct Hnot. by eapply keys_are_elem_of.
Qed.

(** Whatever the call finds, it returns a connection of the requested pair
    and leaves every list strictly sorted. *)
Lemma get_or_create_connection_sorted h cs s t kw :
  conn_map_sorted h (ConnectionSet._connections_map cs) ->
  factory_keeps_sgid (ConnectionSet._conn_factory cs) ->
  exists r h' cs' conns',
    ConnectionSet.get_or_create_connection (Some s) t kw (h, cs)
    = (Ret r, (h', cs'))
    /\ conn_map_sorted h' (ConnectionSet._connections_map cs')
    /\ ConnectionSet._conn_factory cs' = ConnectionSet._conn_factory cs
    /\ dd_get (ConnectionSet._connections_map cs') t = Some conns'
    /\ r ∈ conns'
    /\ sgid_of h' r = Some s.
Proof.
  intros Hsorted Hfac.
  pose proof (conn_map_sorted_getitem h _ t Hsorted) as [Hm1 _].
  pose proof (dd_getitem_get (ConnectionSet._connections_map cs) t) as Hg1.
  destruct (get_or_create_connection_spec h cs s t kw Hsorted)
    as [(r & Hr & Hsg & ->)|(pos & zs & Hk & Hnot & Hins & ->)].
  - eexists r, h, _, _. split_and!; [done|done|done|exact Hg1|done|done].
  - unfold created_state.
    set (c := ConnectionSet._conn_factory cs _ _ _ _ _).
    assert (Hnew : sgid_of (h ++ [c]) (length h) = Some s).
    { unfold sgid_of. rewrite deref_new. apply Hfac. }
    eexists (length h), _, _, _. split_and!; [done| |done| | |done].
    + cbn. apply conn_map_sorted_set.
      * by apply conn_map_sorted_alloc.
      * eexists. split; [|exact Hins].
        apply keys_are_insert; [|done]. by apply keys_are_alloc.
    + cbn. apply dd_get_set. rewrite Hg1. eauto.
    + unfold list_insert_at. apply elem_of_app. right. left.
Qed.

Lemma Connection_init_keeps_sgid : factory_keeps_sgid Connection_init.
Proof. by intros s t a b kw. Qed.

Lemma ConnectionSet_init_sorted h a b f :
  conn_map_sorted h (ConnectionSet._connections_map (ConnectionSet.__init__ a b f)).
Proof. constructor. Qed.

Lemma strictly_sorted_NoDup h conns :
  strictly_sorted_by_sgid h conns -> NoDup (sgid_of h <$> conns).
Proof.
  intros (zs & Hk & Hs). rewrite Hk.
  apply (NoDup_fmap_2 Some). by apply sorted_NoDup.
Qed.

Lemma get_or_create_calls_sorted calls : forall h cs,
  conn_map_sorted h (ConnectionSet._connections_map cs) ->
  factory_keeps_sgid (ConnectionSet._conn_factory cs) ->
  exists h' cs',
    get_or_create_calls calls (h, cs) = (Ret tt, (h', cs'))
    /\ conn_map_sorted h' (ConnectionSet._connections_map cs')
    /\ ConnectionSet._conn_factory cs' = ConnectionSet._conn_factory cs.
Proof.
  induction calls as [|[[s t] kw] calls IH]; intros h cs Hsorted Hfac.
  - by exists h, cs.
  - destruct (get_or_create_connection_sorted h cs s t kw Hsorted Hfac)
      as (r & h1 & cs1 & conns1 & Hgoc & Hs1 & Hf1 & _).
    destruct (IH h1 cs1 Hs1) as (h2 & cs2 & Hrun & Hs2 & Hf2).
    { by rewrite Hf1. }
    exists h2, cs2. split_and!; [|done|congruence].
    unfold get_or_create_calls in *. cbn [for_each].
    unfold mbind at 1 2. cbn [fst snd]. rewrite Hgoc.
    unfold mret at 1. exact Hrun.
Qed.

(** C1.  Starting from a connection set whose lists are strictly sorted
    (the fresh set is one), any sequence of [get_or_create_connection]
    calls with integer source ids, in any order, runs without raising and
    after every prefix of it each per-target list is strictly ascending by
    source id and holds no source id twice. *)
Theorem get_or_create_connection_keeps_sorted
    (h : Heap) (cs : ConnectionSet.t) (calls : list (Z * Z * ConnKwargs))
    (n : nat) :
  conn_map_sorted h (ConnectionSet._connections_map cs) ->
  factory_keeps_sgid (ConnectionSet._conn_factory cs) ->
  exists h' cs',
    get_or_create_calls (take n calls) (h, cs) = (Ret tt, (h', cs'))
    /\ Forall (fun kv => strictly_sorted_by_sgid h' kv.2
                         /\ NoDup (sgid_of h' <$> kv.2))
         (ConnectionSet._connections_map cs').
Proof.
  intros Hsorted Hfac.
  destruct (get_or_create_calls_sorted (take n calls) h cs Hsorted Hfac)
    as (h' & cs' & Hrun & Hs' & _).
  exists h', cs'. split; [done|].
  eapply Forall_impl; [exact Hs'|]. cbn. intros kv Hkv.
  split; [done|by apply strictly_sorted_NoDup].
Qed.

(** C1 on a fresh set and five calls, of which the second and the fourth
    name the same pair. *)
Lemma get_or_create_connection_keeps_sorted_witness :
  conn_map_sorted []
    (ConnectionSet._connections_map (ConnectionSet.__init__ 0 0 Connection_init))
  /\ factory_keeps_sgid
       (ConnectionSet._conn_factory (ConnectionSet.__init__ 0 0 Connection_init))
  /\ exists h' cs',
       get_or_create_calls
         (take 4 [(5, 1, no_kwargs); (3, 1, no_kwargs); (7, 1, no_kwargs);
                  (3, 1, no_kwargs); (4, 2, no_kwargs)]%Z)
         ([], ConnectionSet.__init__ 0 0 Connection_init)
       = (Ret tt, (h', cs'))
       /\ Forall (fun kv => strictly_sorted_by_sgid h' kv.2
                            /\ NoDup (sgid_of h' <$> kv.2))
            (ConnectionSet._connections_map cs').
Proof.
  split; [apply ConnectionSet_init_sorted|].
  split; [apply Connection_init_keeps_sgid|].
  apply get_or_create_connection_keeps_sorted.
  - apply ConnectionSet_init_sorted.
  - apply Connection_init_keeps_sgid.
Defined.

(** C3.  On a connection set whose lists are strictly sorted, calling
    [get_or_create_connection] twice with the same pair returns the same
    connection object both times, and the second call changes neither the
    connection count nor anything else. *)
Theorem get_or_create_connection_idempotent
    (h : Heap) (cs : ConnectionSet.t) (s t : Z) (kw1 kw2 : ConnKwargs) :
  conn_map_sorted h (ConnectionSet._connections_map cs) ->
  factory_keeps_sgid (ConnectionSet._conn_factory cs) ->
  exists r h1 cs1,
    ConnectionSet.get_or_create_connection (Some s) t kw1 (h, cs)
    = (Ret r, (h1, cs1))
    /\ ConnectionSet.get_or_create_connection (Some s) t kw2 (h1, cs1)
       = (Ret r, (h1, cs1))
    /\ ConnectionSet.count
         (snd (snd (ConnectionSet.get_or_create_connection (Some s) t kw2
                      (h1, cs1))))
       = ConnectionSet.count cs1.
Proof.
  intros Hsorted Hfac.
  destruct (get_or_create_connection_sorted h cs s t kw1 Hsorted Hfac)
    as (r & h1 & cs1 & conns1 & Hgoc & Hs1 & Hf1 & Hget & Hin & Hsg).
  exists r, h1, cs1.
  pose proof (get_or_create_connection_found h1 cs1 s t kw2 conns1 r
                Hs1 Hget Hin Hsg) as H2.
  split_and!; [done|done|]. by rewrite H2.
Qed.

(** C3 on a fresh set, for the pair (5, 1). *)
Lemma get_or_create_connection_idempotent_witness :
  conn_map_sorted []
    (ConnectionSet._connections_map (ConnectionSet.__init__ 0 0 Connection_init))
  /\ factory_keeps_sgid
       (ConnectionSet._conn_factory (ConnectionSet.__init__ 0 0 Connection_init))
  /\ exists r h1 cs1,
    ConnectionSet.get_or_create_connection (Some 5%Z) 1%Z no_kwargs
      ([], ConnectionSet.__init__ 0 0 Connection_init)
    = (Ret r, (h1, cs1))
    /\ ConnectionSet.get_or_create_connection (Some 5%Z) 1%Z no_kwargs (h1, cs1)
       = (Ret r, (h1, cs1))
    /\ ConnectionSet.count
         (snd (snd (ConnectionSet.get_or_create_connection (Some 5%Z) 1%Z
                      no_kwargs (h1, cs1))))
       = ConnectionSet.count cs1.
Proof.
  split; [apply ConnectionSet_init_sorted|].
  split; [apply Connection_init_keeps_sgid|].
  apply get_or_create_connection_idempotent.
  - apply ConnectionSet_init_sorted.
  - apply Connection_init_keeps_sgid.
Defined.

(** With the factory of the test plugin, whose connections have no source
    gid, calls for different sources obtain the one connection of the
    target. *)
Example get_or_create_connection_aggregate_source :
  let st0 := ([], ConnectionSet.__init__ 0 0 ACellConnection_init) in
  let r1 := ConnectionSet.get_or_create_connection (Some 5%Z) 1%Z no_kwargs st0 in
  let r2 := ConnectionSet.get_or_create_connection (Some 3%Z) 1%Z no_kwargs r1.2 in
  r1.1 = Ret 0 /\ r2.1 = Ret 0 /\ r2.2 = r1.2
  /\ ConnectionSet.count r2.2.2 = 1%Z
  /\ sgid_of r2.2.1 0 = None.
Proof. cbv zeta. split_and!; vm_compute; reflexivity. Qed.

(** [store_connection] inserts a connection made elsewhere at its sorted
    position, and stores nothing when the pair is there already. *)
Example store_connection_examples :
  let st := populate [(3, 1); (7, 1)]%Z in
  let new := Connection_init (Some 5%Z) 1 0 0 no_kwargs in
  let st1 := (st.1 ++ [new], st.2) in
  let res := ConnectionSet.store_connection 2 st1 in
  let again := ConnectionSet.store_connection 2 res.2 in
  res.1 = Ret tt
  /\ conn_pairs res.2.1 (ConnectionSet.all_connections res.2.2)
     = [(Some 3, 1); (Some 5, 1); (Some 7, 1)]%Z
  /\ ConnectionSet.count res.2.2 = 3%Z
  /\ again = (Ret tt, res.2).
Proof. cbv zeta. split_and!; vm_compute; reflexivity. Qed.

(** C5.  On a set holding exactly the connections (3,1), (5,1), (5,2) and
    (7,2), created in any order, [delete_group(None, [5])] returns
    normally, removes exactly (5,1) and (5,2), leaves (3,1) and (7,2) in
    the order they had, and leaves a count of 2. *)
Theorem delete_group_example (pairs : list (Z * Z)) :
  pairs ≡ₚ [(3, 1); (5, 1); (5, 2); (7, 2)]%Z ->
  delete_group_example_holds pairs.
Proof.
  intros Hperm. symmetry in Hperm. apply permutations_Permutation in Hperm.
  revert pairs Hperm. apply Forall_forall.
  apply (bool_decide_unpack _). vm_compute. exact I.
Qed.

Lemma in_population_reader {A} k (c : M ConnectionSet.St A) w :
  _synapse_reader (self (in_population k c w).2) = _synapse_reader (self w).
Proof.
  unfold in_population. destruct (pops_get _ k); [|done].
  destruct (c _) as [o [h' cs']]. done.
Qed.

Lemma sgid_runs_example :
  sgid_runs 6 [3; 3; 3; 5; 5; 7]%Z 0
  = [(3%Z, 0, 3); (5%Z, 3, 5); (7%Z, 5, 6)].
Proof. reflexivity. Qed.

Lemma cur_population_count_reader w :
  _synapse_reader (self (cur_population_count w).2) = _synapse_reader (self w).
Proof.
  unfold cur_population_count. cbv beta iota delta [mbind get_self].
  apply in_population_reader.
Qed.

(** C2.  Without source or destination filter, for one target whose table
    has the source-gid column [3,3,3,5,5,7], [_iterate_conn_params] hands
    its consumer exactly three tuples, for the source gids 3, 5 and 7 in
    this order, of 3, 2 and 1 rows, at the offsets 0, 3 and 5; the three
    slices put together are the table.  The last run, of length 1, ends
    where the table ends. *)
Theorem iterate_conn_params_groups_runs
    (w : St) (reader : SynapseReader) (tgid : Z)
    (rows : list SynapseParameters) (body : conn_yield -> M St unit) :
  _synapse_reader (self w) = Some reader ->
  get_synapse_parameters reader tgid = rows ->
  map sp_sgid rows = [3; 3; 3; 5; 5; 7]%Z ->
  _iterate_conn_params NoTarget NoTarget (Some [tgid]) body w
  = (created_conns_0 <- cur_population_count ;;
     for_each (example_groups tgid rows) body ;;;
     iterate_epilogue created_conns_0) w
  /\ map (fun y => length (y_syns_params y)) (example_groups tgid rows)
     = [3; 2; 1]
  /\ map y_offset (example_groups tgid rows) = [0; 3; 5]
  /\ map y_sgid (example_groups tgid rows) = [3; 5; 7]%Z
  /\ concat (map y_syns_params (example_groups tgid rows)) = rows.
Proof.
  intros Hreader Hrows Hsgids.
  assert (Hlen : length rows = 6).
  { apply (f_equal length) in Hsgids. by rewrite length_map in Hsgids. }
  split.
  - unfold _iterate_conn_params, iterate_epilogue.
    cbv beta iota delta [mbind get_self default].
    pose proof (cur_population_count_reader w) as Hr.
    destruct (cur_population_count w) as [[c0|e] w0]; [|done].
    cbn [snd] in Hr. rewrite Hreader in Hr.
    match goal with
    | |- (let (_, _) := ?a in _) = (let (_, _) := ?b in _) =>
        replace a with b; [done|]
    end.
    cbn [id for_each]. cbv beta iota delta [mbind get_self lift_outcome].
    rewrite Hr, Hrows, Hsgids. cbn [length]. rewrite sgid_runs_example.
    unfold example_groups. cbn [for_each].
    cbv beta iota delta [mbind mret].
    repeat (destruct (body _ _) as [[[]|?] ?]; try done).
  - unfold example_groups, slice. cbn [map y_syns_params y_offset y_sgid].
    split_and!; try done.
    + rewrite !length_take, !length_drop. repeat f_equal; lia.
    + do 7 (destruct rows as [|? rows]; try done).
Qed.

(** C2 on a manager that owns the cell 1, with a consumer that does
    nothing. *)
Lemma iterate_conn_params_groups_runs_witness :
  let reader := {| get_synapse_parameters := fun _ => example_rows |} in
  let w := {| heap := []; instantiated := [];
              self := set_synapse_reader (Some reader)
                        (__init__ [1%Z] Connection_init) |} in
  _synapse_reader (self w) = Some reader
  /\ get_synapse_parameters reader 1%Z = example_rows
  /\ map sp_sgid example_rows = [3; 3; 3; 5; 5; 7]%Z
  /\ (_iterate_conn_params NoTarget NoTarget (Some [1%Z]) (fun _ => mret tt) w
      = (created_conns_0 <- cur_population_count ;;
         for_each (example_groups 1 example_rows) (fun _ => mret tt) ;;;
         iterate_epilogue created_conns_0) w
      /\ map (fun y => length (y_syns_params y)) (example_groups 1 example_rows)
         = [3; 2; 1]
      /\ map y_offset (example_groups 1 example_rows) = [0; 3; 5]
      /\ map y_sgid (example_groups 1 example_rows) = [3; 5; 7]%Z
      /\ concat (map y_syns_params (example_groups 1 example_rows))
         = example_rows).
Proof.
  cbv zeta.
  split; [reflexivity|]. split; [reflexivity|]. split; [reflexivity|].
  apply (iterate_conn_params_groups_runs _
           {| get_synapse_parameters := fun _ => example_rows |});
    reflexivity.
Defined.

Ltac mred :=
  cbv beta iota delta [mbind lift_outcome mret raise]; cbn [fst snd].

(** C9.  For a target gid [t] that is not a key of the set,
    [get_connection(s, t)] returns [None] and leaves an empty entry for
    [t] behind: afterwards [t in connection_set] is true and [get(t)] is
    the empty list, while the count and the connections are as before. *)
Theorem get_connection_inserts_empty_entry
    (h : Heap) (cs : ConnectionSet.t) (s : option Z) (t : Z) :
  ConnectionSet.__contains__ t cs = false ->
  exists cs',
    ConnectionSet.get_connection s t (h, cs) = (Ret None, (h, cs'))
    /\ ConnectionSet.__contains__ t cs' = true
    /\ ConnectionSet.get t cs' = Some []
    /\ ConnectionSet._connections_map cs'
       = ConnectionSet._connections_map cs ++ [(t, [])]
    /\ ConnectionSet.count cs' = ConnectionSet.count cs
    /\ ConnectionSet.all_connections cs' = ConnectionSet.all_connections cs.
Proof.
  intros Hnot. unfold ConnectionSet.__contains__ in Hnot.
  apply bool_decide_eq_false in Hnot.
  assert (Hget : dd_get (ConnectionSet._connections_map cs) t = None).
  { destruct (dd_get _ t) eqn:E; [|done]. destruct Hnot. eauto. }
  eexists. split.
  - unfold ConnectionSet.get_connection, ConnectionSet._find_connection,
      ConnectionSet.connections_map_getitem, ConnectionSet.get_heap.
    mred. unfold dd_getitem. rewrite Hget. mred. reflexivity.
  - unfold ConnectionSet.__contains__, ConnectionSet.get,
      ConnectionSet.count, ConnectionSet.all_connections. cbn.
    rewrite dd_get_app_None by done. cbn. rewrite Z.eqb_refl.
    split_and!; try done.
    rewrite fmap_app, concat_app. cbn. by rewrite app_nil_r.
Qed.

(** C9 on a set with two connections to the target 1, queried for the
    target 9. *)
Lemma get_connection_inserts_empty_entry_witness :
  ConnectionSet.__contains__ 9%Z (populate [(3, 1); (5, 1)]%Z).2 = false
  /\ exists cs',
    ConnectionSet.get_connection (Some 3%Z) 9%Z (populate [(3, 1); (5, 1)]%Z)
    = (Ret None, ((populate [(3, 1); (5, 1)]%Z).1, cs'))
    /\ ConnectionSet.__contains__ 9%Z cs' = true
    /\ ConnectionSet.get 9%Z cs' = Some []
    /\ ConnectionSet._connections_map cs'
       = ConnectionSet._connections_map (populate [(3, 1); (5, 1)]%Z).2
         ++ [(9%Z, [])]
    /\ ConnectionSet.count cs'
       = ConnectionSet.count (populate [(3, 1); (5, 1)]%Z).2
    /\ ConnectionSet.all_connections cs'
       = ConnectionSet.all_connections (populate [(3, 1); (5, 1)]%Z).2.
Proof.
  split; [reflexivity|].
  apply (get_connection_inserts_empty_entry
           (populate [(3, 1); (5, 1)]%Z).1 (populate [(3, 1); (5, 1)]%Z).2).
  reflexivity.
Defined.

(** ** The population registry *)

Lemma pops_set_id p k cs : pops_get p k = Some cs -> pops_set p k cs = p.
Proof.
  induction p as [|[k' cs'] p IH]; cbn; [done|].
  destruct (pair_eqb k' k); [by intros [= ->]|]. intros H. by rewrite IH.
Qed.

Lemma set_populations_id m : set_populations (_populations m) m = m.
Proof. by destruct m. Qed.

(** A method of a registered set that changes neither the heap nor the set
    leaves the whole state as it is. *)
Lemma in_population_unchanged {A} k (c : M ConnectionSet.St A) w cs o :
  pops_get (_populations (self w)) k = Some cs ->
  c (heap w, cs) = (o, (heap w, cs)) ->
  in_population k c w = (o, w).
Proof.
  intros Hget Hc. unfold in_population. rewrite Hget, Hc.
  rewrite (pops_set_id _ _ _ Hget), set_populations_id.
  by destruct w.
Qed.

(** C8.  When exactly one rule matches the current population and its
    weight is zero, [create_connections] returns at once: it creates no
    connection and changes nothing at all. *)
Theorem create_connections_single_zero_weight
    (env : Env) (connections : list ConnRule) (src_target : option string)
    (w : St) (cur : ConnectionSet.t) (rule : ConnRule) :
  pops_get (_populations (self w)) (_cur_population (self w)) = Some cur ->
  List.filter
    (fun conn =>
       TargetSpec_match_filter env (Source conn) (ConnectionSet.src_name cur)
         src_target (ConnectionSet.src_id cur =? 0)%Z)
    connections = [rule] ->
  PrimFloat.eqb (Map_valueOf_Weight env rule) 0%float = true ->
  create_connections env connections src_target w = (Ret tt, w).
Proof.
  intros Hcur Hmatch Hzero. unfold create_connections.
  cbv beta iota delta [mbind get_self].
  rewrite (in_population_unchanged _ _ w cur (Ret cur) Hcur) by done.
  cbv beta iota. rewrite Hmatch. cbn [length Nat.eqb andb]. by rewrite Hzero.
Qed.

(** ** Point lookup *)

Lemma get_connection_spec h cs s t :
  conn_map_sorted h (ConnectionSet._connections_map cs) ->
  let conns := (dd_getitem (ConnectionSet._connections_map cs) t).1 in
  let m1 := (dd_getitem (ConnectionSet._connections_map cs) t).2 in
  exists found,
    ConnectionSet.get_connection (Some s) t (h, cs)
    = (Ret found, (h, ConnectionSet.set_connections_map m1 cs))
    /\ match found with
       | Some r => r ∈ conns /\ sgid_of h r = Some s
       | None => forall r, r ∈ conns -> sgid_of h r <> Some s
       end.
Proof.
  intros Hsorted conns m1.
  destruct (conn_map_sorted_getitem h _ t Hsorted) as [_ (zs & Hk & Hs)].
  fold conns in Hk.
  remember (ConnectionSet.get_connection (Some s) t (h, cs)) as res eqn:Hres.
  unfold ConnectionSet.get_connection, ConnectionSet._find_connection,
    ConnectionSet.connections_map_getitem, ConnectionSet.get_heap in Hres.
  mstep Hres. rewrite (surjective_pairing (dd_getitem _ t)) in Hres.
  fold conns m1 in Hres. mstep Hres.
  assert (Habsent : forall pos,
    Forall (fun z => (z < s)%Z) (take pos zs) ->
    Forall (fun z => (s < z)%Z) (drop pos zs) ->
    forall r, r ∈ conns -> sgid_of h r <> Some s).
  { intros pos Hlo Hhi r Hr Hsg.
    pose proof (keys_are_elem_of _ _ _ _ _ Hk Hr Hsg) as Hin.
    rewrite <- (take_drop pos zs) in Hin.
    apply elem_of_app in Hin as [Hin|Hin].
    - eapply Forall_forall in Hlo; [|exact Hin]. lia.
    - eapply Forall_forall in Hhi; [|exact Hin]. lia. }
  destruct (bin_search_spec (sgid_of h) conns zs s Hk Hs)
    as (pos & Hbs & Hpos & Hlo & Hhi).
  assert (Hres' : res =
    (let (o, s') :=
       (if pos =? length conns then (Ret (conns, None), (h, ConnectionSet.set_connections_map m1 cs))
        else match list_getitem conns pos with
             | Ret c => if negb (py_eq (sgid_of h c) (Some s))
                        then (Ret (conns, None), (h, ConnectionSet.set_connections_map m1 cs))
                        else (Ret (conns, Some pos), (h, ConnectionSet.set_connections_map m1 cs))
             | Exc e => (Exc e, (h, ConnectionSet.set_connections_map m1 cs))
             end) in
     match o with
     | Ret (_, None) => (Ret None, s')
     | Ret (conn_lst, Some idx) =>
         match list_getitem conn_lst idx with
         | Ret c => (Ret (Some c), s')
         | Exc e => (Exc e, s')
         end
     | Exc e => (Exc e, s')
     end)).
  { rewrite Hres. destruct conns as [|c0 conns0] eqn:Ec.
    - assert (pos = 0) as ->.
      { rewrite <- (keys_are_length _ _ _ Hk) in Hpos. cbn in Hpos. lia. }
      reflexivity.
    - rewrite Hbs. destruct (pos =? _); [done|].
      destruct (list_getitem _ pos); [|done]. by destruct (negb _). }
  clear Hres. rewrite Hres'. clear Hres'.
  rewrite (keys_are_length _ _ _ Hk).
  destruct (pos =? length zs) eqn:Hlen.
  { apply Nat.eqb_eq in Hlen. subst pos. exists None. split; [done|].
    apply (Habsent (length zs)); [done|]. rewrite drop_all. constructor. }
  apply Nat.eqb_neq in Hlen.
  destruct (lookup_lt_is_Some_2 conns pos) as [c Hc].
  { rewrite (keys_are_length _ _ _ Hk). lia. }
  destruct (keys_are_lookup _ _ _ _ _ Hk Hc) as (y & Hy & Hfy).
  unfold list_getitem. rewrite Hc, Hfy. cbn [py_eq negb].
  assert (Hsy : (s <= y)%Z).
  { eapply Forall_drop_lookup; [exact Hhi|exact Hy|lia]. }
  destruct (y =? s)%Z eqn:Hys; cbn [negb].
  { apply Z.eqb_eq in Hys. subst y. rewrite Hc. exists (Some c).
    split; [done|]. split; [|done]. apply list_elem_of_lookup. eauto. }
  apply Z.eqb_neq in Hys. exists None. split; [done|].
  apply (Habsent pos); [done|].
  apply Forall_lookup. intros i z Hz. rewrite lookup_drop in Hz.
  destruct i as [|i].
  - rewrite Nat.add_0_r in Hz. simplify_eq. lia.
  - assert (y < z)%Z; [|lia].
    eapply (sorted_lookup_lt zs pos (pos + S i)); eauto; lia.
Qed.

Lemma get_connection_found h cs s t r :
  conn_map_sorted h (ConnectionSet._connections_map cs) ->
  holds_connection h cs s t r ->
  ConnectionSet.get_connection (Some s) t (h, cs) = (Ret (Some r), (h, cs)).
Proof.
  intros Hsorted (conns & Hget & Hr & Hsg).
  destruct (conn_map_sorted_get _ _ _ _ Hsorted Hget) as (zs & Hk & Hs).
  destruct (get_connection_spec h cs s t Hsorted) as (found & Heq & Hfound).
  rewrite (dd_getitem_Some _ _ _ Hget) in Heq, Hfound. cbn [fst snd] in *.
  rewrite set_connections_map_id in Heq. rewrite Heq.
  destruct found as [r'|].
  - destruct Hfound as [Hr' Hsg'].
    by rewrite (sorted_keys_inj _ _ _ _ _ _ Hk Hs Hr' Hr Hsg' Hsg).
  - by destruct (Hfound r Hr).
Qed.

Lemma get_connection_absent h cs s t :
  conn_map_sorted h (ConnectionSet._connections_map cs) ->
  lacks_connection h cs s t ->
  exists cs',
    ConnectionSet.get_connection (Some s) t (h, cs) = (Ret None, (h, cs')).
Proof.
  intros Hsorted Hlacks.
  destruct (get_connection_spec h cs s t Hsorted) as (found & Heq & Hfound).
  rewrite Heq. destruct found as [r|]; [|eauto].
  destruct Hfound as [Hr Hsg]. exfalso.
  unfold dd_getitem in Hr.
  destruct (dd_get _ t) as [conns|] eqn:Hget; cbn in Hr.
  - by eapply Hlacks.
  - by apply elem_of_nil in Hr.
Qed.

(** ** Flag updates on the heap *)

Lemma lookup_heap_update h r f i :
  heap_update r f h !! i
  = if decide (i = r) then f <$> (h !! i) else h !! i.
Proof.
  unfold heap_update, deref. destruct (decide (i = r)) as [->|Hne].
  - destruct (h !! r) as [c|] eqn:E; cbn.
    + apply list_lookup_insert_eq. by eapply lookup_lt_Some.
    + rewrite list_insert_ge; [done|]. by apply lookup_ge_None.
  - by apply list_lookup_insert_ne.
Qed.

Lemma same_but_flags_refl h : same_but_flags h h.
Proof. done. Qed.

Lemma same_but_flags_update h h' r b :
  same_but_flags h h' ->
  same_but_flags h (heap_update r (set_disabled b) h').
Proof.
  intros H i. rewrite lookup_heap_update.
  case_decide; [|apply H].
  rewrite <- H. by destruct (h' !! i).
Qed.

Lemma same_but_flags_deref h h' r :
  same_but_flags h h' ->
  set_disabled false (deref h' r) = set_disabled false (deref h r).
Proof.
  intros H. specialize (H r). unfold deref.
  destruct (h' !! r), (h !! r); try done.
  apply (inj Some). exact H.
Qed.

Lemma same_but_flags_sgid h h' r :
  same_but_flags h h' -> sgid_of h' r = sgid_of h r.
Proof.
  intros H. apply (same_but_flags_deref _ _ r) in H.
  unfold sgid_of. by apply (f_equal sgid) in H.
Qed.

Lemma same_but_flags_population_id h h' r :
  same_but_flags h h' ->
  population_id (deref h' r) = population_id (deref h r).
Proof.
  intros H. apply (same_but_flags_deref _ _ r) in H.
  by apply (f_equal population_id) in H.
Qed.

Lemma same_but_flags_keys h h' conns zs :
  same_but_flags h h' ->
  keys_are (sgid_of h) conns zs -> keys_are (sgid_of h') conns zs.
Proof.
  intros H Hk. unfold keys_are in *. rewrite <- Hk.
  apply list_fmap_ext. intros i r _. by apply same_but_flags_sgid.
Qed.

Lemma same_but_flags_sorted h h' m :
  same_but_flags h h' -> conn_map_sorted h m -> conn_map_sorted h' m.
Proof.
  intros H Hs. eapply Forall_impl; [exact Hs|].
  intros kv (zs & Hk & Hz). exists zs. eauto using same_but_flags_keys.
Qed.

Lemma same_but_flags_holds h h' cs s t r :
  same_but_flags h h' ->
  holds_connection h cs s t r -> holds_connection h' cs s t r.
Proof.
  intros H (conns & Hget & Hr & Hsg). exists conns.
  by rewrite (same_but_flags_sgid _ _ _ H).
Qed.

(** ** disable *)

Lemma populations_hold_effect w s t targets r :
  populations_hold w s t targets ->
  populations_hold (disable_effect t w r) s t targets.
Proof.
  unfold populations_hold. intros H. eapply Forall_impl; [exact H|].
  intros [k r'] (cs & Hget & Hs & Hh & Hp). exists cs. cbn in *.
  assert (Hf : same_but_flags (heap w)
                 (heap_update r (set_disabled true) (heap w))).
  { apply same_but_flags_update, same_but_flags_refl. }
  split_and!; [done|by eapply same_but_flags_sorted
              |by eapply same_but_flags_holds|].
  by rewrite (same_but_flags_population_id _ _ _ Hf).
Qed.

(** The loop of [disable] over populations that all hold the pair. *)
Lemma disable_loop s t azc targets : forall w,
  populations_hold w s t targets ->
  for_each targets.*1 (fun pop =>
    c <- in_population pop (ConnectionSet.get_connection (Some s) t) ;;
    match c with
    | None => raise AttributeError
    | Some c =>
        Connection_disable c azc ;;;
        conns <- disabled_conns_getitem t ;;
        disabled_conns_set t (conns ++ [c])
    end) w
  = (Ret tt, foldl (disable_effect t) w targets.*2).
Proof.
  induction targets as [|[k r] targets IH]; intros w Hall; [done|].
  inversion Hall as [|? ? (cs & Hget & Hs & Hh & Hp) Hrest]; subst.
  cbn [fmap list_fmap for_each foldl fst snd] in *.
  cbv beta iota delta [mbind].
  rewrite (in_population_unchanged _ _ w cs (Ret (Some r)) Hget)
    by (by apply get_connection_found).
  cbv beta iota.
  assert (Hstep :
    (let (o, s') := Connection_disable r azc w in
     match o with
     | Ret _ =>
         let (o0, s'0) := disabled_conns_getitem t s' in
         match o0 with
         | Ret a0 => disabled_conns_set t (a0 ++ [r]) s'0
         | Exc e => (Exc e, s'0)
         end
     | Exc e => (Exc e, s')
     end) = (Ret tt, disable_effect t w r)).
  { unfold Connection_disable, disabled_conns_getitem, disabled_conns_set,
      modify_heap, modify_self, modify, disable_effect, registry_append.
    cbn. destruct (dd_getitem _ t) as [conns d']. cbn.
    by destruct w as [h i [] ]. }
  rewrite Hstep. apply IH. by apply populations_hold_effect.
Qed.

Lemma set_disabled_conns_id m : set_disabled_conns (_disabled_conns m) m = m.
Proof. by destruct m. Qed.

Lemma foldl_disable_effect t rs : forall w,
  foldl (disable_effect t) w rs
  = {| heap := foldl (fun h r => heap_update r (set_disabled true) h)
                 (heap w) rs;
       instantiated := instantiated w;
       self := set_disabled_conns
                 (foldl (fun reg r => registry_append t r reg)
                    (_disabled_conns (self w)) rs) (self w) |}.
Proof.
  induction rs as [|r rs IH]; intros w; cbn [foldl].
  - rewrite set_disabled_conns_id. by destruct w.
  - rewrite IH. done.
Qed.

(** ** numpy.delete of the positions of the selected elements *)

Lemma enumerate_indices_ge {A} (p : A -> bool) (l : list A) base i :
  i ∈ map fst (List.filter (fun ic : nat * A => p ic.2)
                 (zip (seq base (length l)) l)) ->
  base <= i < base + length l.
Proof.
  revert base. induction l as [|x l IH]; intros base; cbn.
  - by intros ?%elem_of_nil.
  - destruct (p x); cbn.
    + intros [->|Hin]%elem_of_cons; [lia|]. apply IH in Hin. lia.
    + intros Hin. apply IH in Hin. lia.
Qed.

Lemma remove_indices_selected {A} (p : A -> bool) (l : list A) :
  forall base pre,
    Forall (fun i => i < base) pre ->
    remove_indices base
      (pre ++ map fst (List.filter (fun ic : nat * A => p ic.2)
                         (zip (seq base (length l)) l))) l
    = List.filter (fun x => negb (p x)) l.
Proof.
  induction l as [|x l IH]; intros base pre Hpre; [done|].
  cbn [length seq zip zip_with List.filter remove_indices snd].
  destruct (p x) eqn:Hp; cbn [negb map fst].
  - rewrite bool_decide_eq_true_2.
    2:{ apply elem_of_app. right. left. }
    rewrite (cons_middle base), app_assoc. apply IH.
    apply Forall_app. split.
    + eapply Forall_impl; [exact Hpre|]. cbn. lia.
    + repeat constructor.
  - rewrite bool_decide_eq_false_2.
    2:{ intros [Hin|Hin]%elem_of_app.
        - eapply Forall_forall in Hpre; [|exact Hin]. lia.
        - apply enumerate_indices_ge in Hin. lia. }
    f_equal. apply IH. eapply Forall_impl; [exact Hpre|]. cbn. lia.
Qed.

Lemma numpy_delete_selected {A} (p : A -> bool) (l : list A) :
  numpy_delete l
    (map fst (List.filter (fun ic : nat * A => p ic.2) (enumerate l)))
  = Ret (List.filter (fun x => negb (p x)) l).
Proof.
  unfold numpy_delete, enumerate.
  rewrite (proj2 (forallb_forall _ _)).
  - f_equal. apply (remove_indices_selected p l 0 []). constructor.
  - intros i Hin. apply list_elem_of_In in Hin.
    apply enumerate_indices_ge in Hin. apply Nat.ltb_lt. lia.
Qed.

(** ** reenable *)

Lemma pop_ids_populations m m' k :
  _populations m = _populations m' -> pop_ids m k = pop_ids m' k.
Proof. unfold pop_ids. by intros ->. Qed.

Lemma reenable_selects_ext m m' h h' sgid pops r :
  _populations m = _populations m' -> same_but_flags h h' ->
  reenable_selects m' h' sgid pops r = reenable_selects m h sgid pops r.
Proof.
  intros Hp Hf. unfold reenable_selects.
  rewrite (same_but_flags_sgid _ _ _ Hf).
  rewrite (same_but_flags_population_id _ _ _ Hf).
  f_equal. induction pops as [|k pops IH]; [done|]. cbn.
  by rewrite IH, (pop_ids_populations _ _ k Hp).
Qed.

Lemma reenable_loop sgid pops m0 h0 l : forall acc w,
  _populations m0 = _populations (self w) ->
  same_but_flags h0 (heap w) ->
  for_acc l (fun delete_indexes (i_conn : nat * ref) =>
    m <- get_self ;;
    h <- get_heap ;;
    if reenable_selects m h sgid pops i_conn.2
    then Connection_enable i_conn.2 ;;; mret (delete_indexes ++ [i_conn.1])
    else mret delete_indexes) acc w
  = (Ret (acc ++ map fst
            (List.filter (fun ic => reenable_selects m0 h0 sgid pops ic.2) l)),
     set_heap
       (foldl (fun h r => heap_update r (set_disabled false) h) (heap w)
          (List.filter (reenable_selects m0 h0 sgid pops) l.*2)) w).
Proof.
  induction l as [|[i r] l IH]; intros acc w Hm Hf.
  - cbn. rewrite app_nil_r. by destruct w.
  - cbn [for_acc fmap list_fmap List.filter snd fst].
    cbv beta iota delta [mbind get_self get_heap mret]. cbn [fst snd].
    rewrite (reenable_selects_ext m0 (self w) h0 (heap w)) by done.
    destruct (reenable_selects m0 h0 sgid pops r) eqn:Hsel.
    + unfold Connection_enable, modify_heap, modify.
      rewrite IH; [|done|by apply same_but_flags_update].
      cbn. by rewrite <- app_assoc.
    + by rewrite IH.
Qed.

Lemma filter_all {A} (p : A -> bool) (l : list A) :
  (forall x, x ∈ l -> p x = true) -> List.filter p l = l.
Proof.
  induction l as [|x l IH]; intros H; [done|]. cbn.
  rewrite H by left. f_equal. apply IH. intros y Hy. apply H. by right.
Qed.

Lemma filter_none {A} (p : A -> bool) (l : list A) :
  (forall x, x ∈ l -> p x = false) -> List.filter p l = [].
Proof.
  induction l as [|x l IH]; intros H; [done|]. cbn.
  rewrite H by left. apply IH. intros y Hy. apply H. by right.
Qed.

Lemma enumerate_snd {A} (l : list A) : (enumerate l).*2 = l.
Proof. unfold enumerate. apply snd_zip. by rewrite length_seq. Qed.

(** *** The heap after setting and clearing flags *)

Lemma lookup_foldl_flag b rs : forall (h : Heap) i,
  foldl (fun h r => heap_update r (set_disabled b) h) h rs !! i
  = if bool_decide (i ∈ rs) then set_disabled b <$> (h !! i) else h !! i.
Proof.
  induction rs as [|r rs IH]; intros h i; [done|].
  cbn [foldl]. rewrite IH, lookup_heap_update.
  destruct (decide (i = r)) as [->|Hne].
  - rewrite (bool_decide_eq_true_2 (r ∈ r :: rs)) by left.
    case_bool_decide; [|done]. by destruct (h !! r).
  - case_bool_decide as Hin.
    + rewrite bool_decide_eq_true_2; [done|by right].
    + rewrite bool_decide_eq_false_2; [done|].
      by intros [?|?]%elem_of_cons.
Qed.

Lemma same_but_flags_foldl b rs h :
  same_but_flags h (foldl (fun h r => heap_update r (set_disabled b) h) h rs).
Proof.
  intros i. rewrite lookup_foldl_flag. case_bool_decide; [|done].
  by destruct (h !! i).
Qed.

Lemma flags_round_trip rs (h : Heap) :
  (forall r, r ∈ rs -> disabled (deref h r) = false) ->
  foldl (fun h r => heap_update r (set_disabled false) h)
    (foldl (fun h r => heap_update r (set_disabled true) h) h rs) rs
  = h.
Proof.
  intros Hen. apply list_eq. intros i. rewrite !lookup_foldl_flag.
  case_bool_decide as Hin; [|done].
  specialize (Hen i Hin). unfold deref in Hen.
  destruct (h !! i) as [c|]; [|done]. cbn in *.
  destruct c; cbn in *. by subst.
Qed.

(** *** The registry after the appends *)

Lemma registry_append_getitem t r reg :
  (dd_getitem (registry_append t r reg) t).1 = (dd_getitem reg t).1 ++ [r].
Proof.
  unfold registry_append.
  rewrite (dd_getitem_Some _ _ ((dd_getitem reg t).1 ++ [r])); [done|].
  apply dd_get_set. rewrite dd_getitem_get. eauto.
Qed.

Lemma foldl_registry_append_getitem t rs : forall reg,
  (dd_getitem (foldl (fun reg r => registry_append t r reg) reg rs) t).1
  = (dd_getitem reg t).1 ++ rs.
Proof.
  induction rs as [|r rs IH]; intros reg; cbn [foldl].
  - by rewrite app_nil_r.
  - by rewrite IH, registry_append_getitem, <- app_assoc.
Qed.

Lemma dd_getitem_fst reg t : (dd_getitem reg t).1 = default [] (dd_get reg t).
Proof. unfold dd_getitem. by destruct (dd_get reg t). Qed.

Lemma find_populations_same_populations sel w w' pops :
  find_populations sel w = (Ret pops, w) ->
  _populations (self w') = _populations (self w) ->
  find_populations sel w' = (Ret pops, w').
Proof.
  unfold find_populations. cbv beta iota delta [mbind get_self mret raise].
  intros H ->.
  destruct sel as [| |[a|] [b|]];
    try (apply (f_equal fst) in H; cbn [fst] in H; by rewrite H).
  destruct (pops_get _ (a, b)); [|done].
  apply (f_equal fst) in H. cbn [fst] in H. by rewrite H.
Qed.

Lemma mbind_ret {St A B} (c : M St A) (k : A -> M St B) s a s' :
  c s = (Ret a, s') -> mbind c k s = k a s'.
Proof. unfold mbind. by intros ->. Qed.

Lemma pop_ids_get m k cs :
  pops_get (_populations m) k = Some cs ->
  pop_ids m k = (ConnectionSet.src_id cs, ConnectionSet.dst_id cs).
Proof. unfold pop_ids. by intros ->. Qed.

Lemma pair_eqb_refl a : pair_eqb a a = true.
Proof. unfold pair_eqb. by rewrite !Z.eqb_refl. Qed.

Lemma populations_hold_selected w s t targets r :
  populations_hold w s t targets -> r ∈ targets.*2 ->
  reenable_selects (self w) (heap w) (Some s) targets.*1 r = true
  /\ r < length (heap w).
Proof.
  intros Hall Hr. apply list_elem_of_fmap in Hr as ([k r'] & -> & Hin).
  eapply Forall_forall in Hall; [|exact Hin].
  destruct Hall as (cs & Hget & _ & (conns & _ & _ & Hsg) & Hpid).
  cbn [fst snd] in *. split; [|by eapply sgid_of_valid].
  unfold reenable_selects. rewrite Hsg. cbn [py_eq]. rewrite Z.eqb_refl.
  cbn [andb]. apply existsb_exists. exists k. split.
  - apply list_elem_of_In, list_elem_of_fmap. by exists (k, r').
  - rewrite (pop_ids_get _ _ _ Hget), Hpid. apply pair_eqb_refl.
Qed.

(** C7, as the code has it.  When every population the selector matches
    holds the pair (s, t), enabled and with no entry for it in the
    disabled registry, [disable(s, t)] flags each such connection as
    disabled and appends it to the registry, leaving it in its set;
    [reenable(s, t)] then gives back the connections, the populations and
    the registry as they were before [disable], hence the same count. *)
Theorem disable_reenable_round_trip
    (w : St) (s t : Z) (also_zero_conductance : bool) (sel : pop_sel)
    (targets : list ((Z * Z) * ref)) :
  find_populations sel w = (Ret targets.*1, w) ->
  populations_hold w s t targets ->
  (forall r, r ∈ targets.*2 -> disabled (deref (heap w) r) = false) ->
  (forall r, r ∈ disabled_of (self w) t ->
     reenable_selects (self w) (heap w) (Some s) targets.*1 r = false) ->
  exists w1 w2,
    disable (Some s) t also_zero_conductance sel w = (Ret tt, w1)
    /\ _populations (self w1) = _populations (self w)
    /\ (forall r, r ∈ targets.*2 ->
          disabled (deref (heap w1) r) = true
          /\ r ∈ disabled_of (self w1) t)
    /\ reenable (Some s) t sel w1 = (Ret tt, w2)
    /\ heap w2 = heap w
    /\ _populations (self w2) = _populations (self w)
    /\ disabled_of (self w2) t = disabled_of (self w) t
    /\ connection_count (self w2) = connection_count (self w).
Proof.
  intros Hfind Hhold Hen Hclear.
  set (h1 := foldl (fun h r => heap_update r (set_disabled true) h)
               (heap w) targets.*2).
  set (reg1 := foldl (fun reg r => registry_append t r reg)
                 (_disabled_conns (self w)) targets.*2).
  pose (w1 := {| heap := h1; instantiated := instantiated w;
                 self := set_disabled_conns reg1 (self w) |}).
  assert (Hdis : disable (Some s) t also_zero_conductance sel w
                 = (Ret tt, w1)).
  { unfold disable. unfold mbind at 1. rewrite Hfind.
    rewrite (disable_loop s t also_zero_conductance targets w Hhold).
    by rewrite foldl_disable_effect. }
  assert (Hflags : same_but_flags (heap w) h1)
    by apply same_but_flags_foldl.
  assert (HL : (dd_getitem reg1 t).1 = disabled_of (self w) t ++ targets.*2).
  { unfold reg1. rewrite foldl_registry_append_getitem.
    by rewrite dd_getitem_fst. }
  set (sel0 := reenable_selects (self w) (heap w) (Some s) targets.*1).
  assert (Hsel_rs : forall r, r ∈ targets.*2 -> sel0 r = true).
  { intros r Hr. by apply (populations_hold_selected w s t targets). }
  assert (Hfilter : List.filter sel0 (disabled_of (self w) t ++ targets.*2) = targets.*2).
  { rewrite List.filter_app, (filter_none sel0 _ Hclear),
      (filter_all sel0 _ Hsel_rs). done. }
  assert (Hfilter' : List.filter (fun x => negb (sel0 x))
                       (disabled_of (self w) t ++ targets.*2)
                     = disabled_of (self w) t).
  { rewrite List.filter_app, filter_all, filter_none.
    - apply app_nil_r.
    - intros r Hr. by rewrite Hsel_rs.
    - intros r Hr. by rewrite Hclear. }
  pose (w2 := {| heap := heap w; instantiated := instantiated w;
                 self := set_disabled_conns
                           (dd_set (dd_getitem reg1 t).2 t
                              (disabled_of (self w) t)) (self w) |}).
  exists w1, w2. split_and!; try done.
  - intros r Hr. split.
    + destruct (populations_hold_selected w s t targets r Hhold Hr)
        as [_ Hvalid].
      unfold deref. cbn [heap w1]. unfold h1. rewrite lookup_foldl_flag.
      rewrite bool_decide_eq_true_2 by done.
      destruct (lookup_lt_is_Some_2 _ _ Hvalid) as [c ->]. done.
    + unfold disabled_of. cbn [self w1 _disabled_conns set_disabled_conns].
      rewrite <- dd_getitem_fst, HL. apply elem_of_app. by right.
  - unfold reenable.
    rewrite (mbind_ret _ _ _ _ _
               (find_populations_same_populations sel w w1 targets.*1 Hfind
                  eq_refl)).
    assert (Hget1 : disabled_conns_getitem t w1
              = (Ret (disabled_of (self w) t ++ targets.*2),
                 set_self (set_disabled_conns (dd_getitem reg1 t).2 (self w1))
                   w1)).
    { unfold disabled_conns_getitem.
      cbn [self w1 _disabled_conns set_disabled_conns].
      by rewrite (surjective_pairing (dd_getitem reg1 t)), HL. }
    rewrite (mbind_ret _ _ _ _ _ Hget1).
    erewrite mbind_ret;
      [|by apply (reenable_loop (Some s) targets.*1 (self w) (heap w))].
    cbn [app]. fold sel0. rewrite enumerate_snd, Hfilter.
    erewrite mbind_ret.
    2:{ unfold disabled_conns_getitem, set_heap.
        cbn [self heap instantiated _disabled_conns set_disabled_conns
               set_self].
        rewrite (dd_getitem_Some _ _ (disabled_of (self w) t ++ targets.*2));
          [reflexivity|].
        rewrite <- HL. apply dd_getitem_get. }
    erewrite mbind_ret.
    2:{ unfold lift_outcome. by rewrite (numpy_delete_selected sel0). }
    rewrite Hfilter'.
    unfold disabled_conns_set, modify_self, modify, set_self.
    cbn [self heap instantiated w1]. unfold w2.
    unfold h1. rewrite (flags_round_trip _ _ Hen). reflexivity.
  - unfold disabled_of. cbn [self w2 _disabled_conns set_disabled_conns].
    rewrite dd_get_set; [|rewrite dd_getitem_get; eauto]. done.
Qed.

(** ** Invariants of monadic code *)

Section invariants.
Context {St : Type} (P : St -> Prop).

Lemma keeps_mret {A} (a : A) : keeps P (mret a).
Proof. by intros s. Qed.

Lemma keeps_raise {A} e : keeps P (raise (A := A) e).
Proof. by intros s. Qed.

Lemma keeps_lift_outcome {A} (o : outcome A) : keeps P (lift_outcome o).
Proof. by intros s. Qed.

Lemma keeps_mbind {A B} (c : M St A) (k : A -> M St B) :
  keeps P c -> (forall a, keeps P (k a)) -> keeps P (mbind c k).
Proof.
  intros Hc Hk s Hs. unfold mbind. specialize (Hc s Hs).
  destruct (c s) as [[a|e] s']; cbn in *; [by apply Hk|done].
Qed.

Lemma keeps_for_each {A} (l : list A) (body : A -> M St unit) :
  (forall x, keeps P (body x)) -> keeps P (for_each l body).
Proof.
  intros Hb. induction l as [|x l IH]; cbn [for_each].
  - apply keeps_mret.
  - apply keeps_mbind; auto.
Qed.
End invariants.

(** ** connect_group and the lock *)

(** A call of [get_or_create_connection] leaves the heap as it is or
    appends the connection it returns. *)
Lemma get_or_create_connection_heap sgid tgid kw h cs :
  let res := ConnectionSet.get_or_create_connection sgid tgid kw (h, cs) in
  res.2.1 = h
  \/ exists c, res.2.1 = h ++ [c] /\ res.1 = Ret (length h).
Proof.
  cbv zeta. unfold ConnectionSet.get_or_create_connection,
    ConnectionSet.connections_map_getitem, ConnectionSet.get_heap,
    ConnectionSet.get_self, ConnectionSet.connections_map_mutate,
    ConnectionSet.modify_self, modify, heap_alloc.
  cbv beta iota delta [mbind lift_outcome mret]. cbn [fst snd].
  destruct (dd_getitem _ tgid) as [conns m1]. cbn [fst snd].
  destruct (last conns) as [l|]; [|right; eauto].
  destruct (_ || _); [by left|].
  destruct (py_lt _ _) as [[]|]; [right; eauto| |by left].
  destruct (bin_search _ _ _) as [pos|]; [|by left].
  destruct (list_getitem _ _) as [c|]; [|by left].
  destruct (py_eq _ _); [by left|right; eauto].
Qed.

Lemma lock_respected_refl h : lock_respected h h.
Proof. split; auto. Qed.

Lemma keeps_heap_unchanged (P : Heap -> Prop) {A} (c : M St A) :
  (forall w, heap (c w).2 = heap w) -> keeps (fun w => P (heap w)) c.
Proof. intros Hc w Hw. by rewrite Hc. Qed.

Lemma cur_population_count_heap w : heap (cur_population_count w).2 = heap w.
Proof.
  unfold cur_population_count, in_population.
  cbv beta iota delta [mbind get_self mret ConnectionSet.get_self].
  cbn [fst snd]. by destruct (pops_get _ _).
Qed.

(** [_add_synapses] touches the connection it is given and nothing else. *)
Lemma add_synapses_heap cur sps restrict base : forall w,
  exists h',
    _add_synapses cur sps restrict base w = (Ret tt, set_heap h' w)
    /\ forall i, i <> cur -> h' !! i = heap w !! i.
Proof.
  unfold _add_synapses. generalize (enumerate sps) as l.
  induction l as [|[i sp] l IH]; intros w.
  - exists (heap w). split; [by destruct w|done].
  - cbn [for_each fst snd]. destruct (_ && _).
    + destruct (IH w) as (h' & Hrun & Hother). exists h'.
      split; [|done]. by erewrite mbind_ret by reflexivity.
    + erewrite mbind_ret by reflexivity.
      destruct (IH (set_heap (heap_update cur
                  (fun c => add_synapse
                     (locationToPoint (tgid c) (sp_isec sp) (sp_ipt sp)
                        (sp_offset sp)) sp (base + i) c) (heap w)) w))
        as (h' & Hrun & Hother).
      exists h'. split; [by rewrite Hrun; destruct w|].
      intros j Hj. rewrite (Hother j Hj). cbn.
      rewrite lookup_heap_update. by case_decide.
Qed.

Lemma connect_group_body_lock h0 pop kw restrict y :
  keeps (fun w => lock_respected h0 (heap w))
    (connect_group_body pop kw restrict y).
Proof.
  intros w [Hkeep Hnew]. unfold connect_group_body. unfold mbind at 1.
  pose proof (fun cs => get_or_create_connection_heap
                (Some (y_sgid y)) (y_tgid y) kw (heap w) cs) as Hgoc.
  unfold in_population. destruct (pops_get _ pop) as [cs|]; [|done].
  specialize (Hgoc cs). cbv zeta in Hgoc.
  destruct (ConnectionSet.get_or_create_connection _ _ _ _)
    as [o [h1 cs1]]. cbn [fst snd] in Hgoc.
  set (w1 := set_heap h1 _).
  (* the heap after the lookup: unchanged, or one connection more *)
  assert (Hkeep1 : forall r c, h0 !! r = Some c -> locked c = true ->
                     h1 !! r = Some c).
  { intros r c Hr Hc. destruct Hgoc as [->|(cn & -> & _)]; [eauto|].
    apply lookup_app_l_Some. eauto. }
  destruct o as [cur|e]; cbn [snd].
  2:{ split; [done|]. destruct Hgoc as [->|(cn & _ & [=])]. done. }
  unfold get_heap, mbind at 1. cbn [heap w1 set_heap].
  destruct (locked (deref h1 cur)) eqn:Hlocked.
  - (* already locked: the group is skipped *)
    cbn. split; [done|]. intros r c' Hr.
    destruct Hgoc as [->|(cn & -> & [= ->])]; [eauto|].
    apply lookup_app_Some in Hr as [Hr|[Hlen Hr]]; [eauto|].
    right. rewrite deref_new in Hlocked.
    destruct (r - length (heap w)) eqn:E; cbn in Hr; [|done].
    by simplify_eq.
  - destruct (add_synapses_heap cur (y_syns_params y) restrict (y_offset y)
                w1) as (h2 & Hrun & Hother).
    unfold mbind. rewrite Hrun. unfold modify_heap, modify. cbn.
    split.
    + intros r c Hr Hc. rewrite lookup_heap_update.
      assert (r <> cur).
      { intros ->. specialize (Hkeep1 _ _ Hr Hc). unfold deref in Hlocked.
        rewrite Hkeep1 in Hlocked. cbn in Hlocked. congruence. }
      rewrite decide_False by done. rewrite Hother by done. cbn. eauto.
    + intros r c'. rewrite lookup_heap_update. case_decide as Hr.
      * intros Hc'. right. destruct (h2 !! r); by simplify_eq/=.
      * rewrite Hother by done. cbn. intros Hc'.
        destruct Hgoc as [->|(cn & -> & [= ->])]; [eauto|].
        apply lookup_app_Some in Hc' as [Hc'|[Hlen Hc']]; [eauto|].
        destruct (r - length (heap w)) eqn:E; cbn in Hc'; [|done].
        lia.
Qed.

Lemma keeps_iterate_conn_params (P : Heap -> Prop) src_target dst_target gids
    (body : conn_yield -> M St unit) :
  (forall y, keeps (fun w => P (heap w)) (body y)) ->
  keeps (fun w => P (heap w))
    (_iterate_conn_params src_target dst_target gids body).
Proof.
  intros Hbody. unfold _iterate_conn_params.
  apply keeps_mbind; [by apply keeps_heap_unchanged|]. intros m0.
  apply keeps_mbind.
  { apply keeps_heap_unchanged, cur_population_count_heap. }
  intros c0. apply keeps_mbind.
  - apply keeps_for_each. intros tgid.
    apply keeps_mbind; [apply keeps_lift_outcome|]. intros [|].
    + apply keeps_mret.
    + apply keeps_mbind; [by apply keeps_heap_unchanged|]. intros m.
      destruct (_synapse_reader m); [|apply keeps_raise].
      apply keeps_for_each. intros [[sgid cur_i] next_i].
      apply keeps_mbind; [apply keeps_lift_outcome|]. intros [|].
      * apply Hbody.
      * apply keeps_mret.
  - intros _. apply keeps_mbind.
    { apply keeps_heap_unchanged, cur_population_count_heap. }
    intros c1. by apply keeps_heap_unchanged.
Qed.

(** C4.  In [connect_group], a yielded group whose connection is already
    locked is skipped: nothing is done after the connection was fetched.
    Over a whole call, a connection that was locked at the start is the
    same afterwards (it received no synapse), and every connection the
    call changed or created is locked at the end. *)
Theorem connect_group_respects_lock
    (env : Env) (src_target_name dst_target_name : string)
    (synapse_type_restrict : option Z) (w : St) :
  (* a group whose connection is locked is skipped entirely *)
  (forall pop kw y w0 cur_conn w1,
      in_population pop
        (ConnectionSet.get_or_create_connection (Some (y_sgid y)) (y_tgid y) kw)
        w0 = (Ret cur_conn, w1) ->
      locked (deref (heap w1) cur_conn) = true ->
      connect_group_body pop kw synapse_type_restrict y w0 = (Ret tt, w1))
  (* a connection locked beforehand is left as it is *)
  /\ (forall r c,
        heap w !! r = Some c -> locked c = true ->
        heap (connect_group env src_target_name dst_target_name
                synapse_type_restrict w).2 !! r = Some c)
  (* every connection that was populated is locked afterwards *)
  /\ (forall r c',
        heap (connect_group env src_target_name dst_target_name
                synapse_type_restrict w).2 !! r = Some c' ->
        heap w !! r = Some c' \/ locked c' = true).
Proof.
  split.
  - intros pop kw y w0 cur w1 Hgoc Hlocked. unfold connect_group_body.
    rewrite (mbind_ret _ _ _ _ _ Hgoc).
    erewrite mbind_ret by reflexivity. by rewrite Hlocked.
  - apply (keeps_mbind (fun w' => lock_respected (heap w) (heap w'))
             get_self
             (fun m => _iterate_conn_params _ _ None (connect_group_body _ _ _))).
    + by apply keeps_heap_unchanged.
    + intros m.
      apply (keeps_iterate_conn_params (lock_respected (heap w))).
      intros y. apply connect_group_body_lock.
    + apply lock_respected_refl.
Qed.

(** ** finalize *)

Lemma created_among_app env h b sc at_ l1 l2 :
  created_among env h b sc at_ (l1 ++ l2)
  = (created_among env h b sc at_ l1 + created_among env h b sc at_ l2)%Z.
Proof.
  unfold created_among. induction l1 as [|c l1 IH]; cbn; [done|].
  rewrite IH. lia.
Qed.

Lemma created_among_reverse env h b sc at_ l :
  created_among env h b sc at_ (reverse l) = created_among env h b sc at_ l.
Proof.
  induction l as [|c l IH]; [done|].
  rewrite reverse_cons, created_among_app, IH.
  unfold created_among. cbn. lia.
Qed.

Lemma finalize_conns_loop env b sc at_ l : forall n w,
  sum_each l (fun conn =>
    h <- get_heap ;;
    modify (fun w => set_instantiated (instantiated w ++ [conn]) w) ;;;
    if Connection_finalize env (deref h conn) b sc at_
    then mret 1%Z else mret 0%Z) n w
  = (Ret (n + created_among env (heap w) b sc at_ l)%Z,
     set_instantiated (instantiated w ++ l) w).
Proof.
  induction l as [|c l IH]; intros n w.
  - cbn. rewrite Z.add_0_r, app_nil_r. by destruct w.
  - cbn [sum_each].
    erewrite (mbind_ret _ _ _
                (if Connection_finalize env (deref (heap w) c) b sc at_
                 then 1%Z else 0%Z)
                (set_instantiated (instantiated w ++ [c]) w)).
    2:{ erewrite mbind_ret by reflexivity.
        erewrite mbind_ret by reflexivity.
        destruct (Connection_finalize _ _ _ _ _); reflexivity. }
    rewrite IH. cbn. rewrite <- app_assoc. f_equal. f_equal.
    unfold created_among. cbn. lia.
Qed.

Lemma finalize_items_loop env b sc at_ items : forall n w,
  sum_each items (fun tgid_conns : Z * list ref =>
    SynapseRuleManager._finalize_conns env tgid_conns.1 tgid_conns.2 b sc at_)
    n w
  = (Ret (n + foldr (fun tgid_conns k =>
                       (created_among env (heap w) b sc at_ tgid_conns.2 + k)%Z)
                0%Z items)%Z,
     set_instantiated
       (instantiated w
        ++ concat (map (fun tgid_conns : Z * list ref => reverse tgid_conns.2)
                     items)) w).
Proof.
  induction items as [|[tgid conns] items IH]; intros n w.
  - cbn. rewrite Z.add_0_r, app_nil_r. by destruct w.
  - cbn [sum_each fst snd].
    erewrite mbind_ret.
    2:{ unfold SynapseRuleManager._finalize_conns.
        apply finalize_conns_loop. }
    rewrite IH. rewrite created_among_reverse.
    cbn [heap instantiated set_instantiated map concat foldr snd].
    rewrite <- app_assoc. f_equal. f_equal. lia.
Qed.

Lemma finalize_pops_loop env b sc pops : forall n w,
  sum_each pops (fun popid_pop : (Z * Z) * ConnectionSet.t =>
    let pop := popid_pop.2 in
    let attach_src_cell :=
      (ConnectionSet.src_id pop =? 0)%Z
      || (bool_decide (ConnectionSet.src_name pop = None) && sc) in
    sum_each (ConnectionSet.items pop) (fun tgid_conns =>
      SynapseRuleManager._finalize_conns env tgid_conns.1 tgid_conns.2 b sc
        attach_src_cell) 0%Z) n w
  = (Ret (n + foldr (fun popid_pop k =>
                (foldr (fun tgid_conns k =>
                     (created_among env (heap w) b sc
                        (attach_src_cell_of sc popid_pop.2)
                        tgid_conns.2 + k)%Z)
                   0%Z (ConnectionSet.items popid_pop.2) + k)%Z) 0%Z pops)%Z,
     set_instantiated
       (instantiated w
        ++ concat (map (fun popid_pop : (Z * Z) * ConnectionSet.t =>
             concat (map (fun tgid_conns : Z * list ref => reverse tgid_conns.2)
                       (ConnectionSet.items popid_pop.2))) pops)) w).
Proof.
  induction pops as [|[popid pop] pops IH]; intros n w.
  - cbn. rewrite Z.add_0_r, app_nil_r. by destruct w.
  - cbn [sum_each fst snd]. cbv zeta.
    erewrite mbind_ret by apply finalize_items_loop.
    rewrite IH.
    cbn [heap instantiated set_instantiated map concat foldr snd].
    rewrite <- app_assoc. f_equal. f_equal.
    unfold attach_src_cell_of. lia.
Qed.

Lemma MPI_allreduce_SUM_sum value peers :
  MPI_allreduce_SUM value peers = (value + foldr Z.add 0 peers)%Z.
Proof.
  unfold MPI_allreduce_SUM. induction peers as [|p peers IH]; cbn; lia.
Qed.

(** C6, as the code has it.  [finalize] releases the reader and visits
    every population, every target of it and the connection list of the
    target from its last element to its first, that is by descending
    source gid; it returns the number of connections instantiated locally
    plus the counts of the other ranks.  Three ranks that instantiate 4, 0
    and 3 connections all obtain 7. *)
Theorem finalize_visits_lists_backwards_and_sums
    (env : Env) (base_seed : Z) (sim_corenrn : bool) (peers : list Z)
    (w : St) :
  finalize (SynapseRuleManager._finalize_conns env) base_seed sim_corenrn
    peers w
  = (Ret (local_created env (heap w) base_seed sim_corenrn (self w)
          + foldr Z.add 0 peers)%Z,
     {| heap := heap w;
        instantiated := instantiated w ++ finalize_order (self w);
        self := set_synapse_reader None (self w) |})
  /\ finalize_on_ranks example_env 0 false
       [manager_with [(1, 1); (2, 1); (3, 1); (1, 2)]%Z;
        manager_with [];
        manager_with [(7, 1); (1, 2); (2, 2)]%Z]
     = [Ret 7%Z; Ret 7%Z; Ret 7%Z]
  /\ map (rank_contribution example_env 0 false)
       [manager_with [(1, 1); (2, 1); (3, 1); (1, 2)]%Z;
        manager_with [];
        manager_with [(7, 1); (1, 2); (2, 2)]%Z]
     = [4; 0; 3]%Z.
Proof.
  split; [|split; reflexivity].
  unfold finalize.
  erewrite mbind_ret by reflexivity.
  erewrite mbind_ret by reflexivity.
  erewrite mbind_ret by apply finalize_pops_loop.
  rewrite MPI_allreduce_SUM_sum. unfold mret, modify_self, modify. cbn.
  by destruct (self w).
Qed.

(** C10, for a selector that matches a population.  When the selector
    matches at least one population and no matched population holds the
    pair (s, t), [disable(s, t)] raises [AttributeError] (the lookup gave
    [None]); the disabled registry and the connections are as before. *)
Theorem disable_absent_raises
    (w : St) (s t : Z) (also_zero_conductance : bool) (sel : pop_sel)
    (pops : list (Z * Z)) :
  find_populations sel w = (Ret pops, w) ->
  pops <> [] ->
  (forall k, k ∈ pops ->
     exists cs,
       pops_get (_populations (self w)) k = Some cs
       /\ conn_map_sorted (heap w) (ConnectionSet._connections_map cs)
       /\ lacks_connection (heap w) cs s t) ->
  exists w',
    disable (Some s) t also_zero_conductance sel w = (Exc AttributeError, w')
    /\ _disabled_conns (self w') = _disabled_conns (self w)
    /\ heap w' = heap w.
Proof.
  intros Hfind Hne Habsent. destruct pops as [|k pops]; [done|].
  destruct (Habsent k) as (cs & Hget & Hsorted & Hlacks); [left|].
  destruct (get_connection_absent _ _ _ _ Hsorted Hlacks) as (cs' & Hgc).
  unfold disable. rewrite (mbind_ret _ _ _ _ _ Hfind). cbn [for_each].
  eexists. split.
  - unfold mbind at 1 2. unfold in_population. rewrite Hget, Hgc.
    reflexivity.
  - done.
Qed.

(** C10 on a manager holding (3,1) only, for the pair (5,1). *)
Lemma disable_absent_raises_witness :
  let w := manager_with [(3, 1)]%Z in
  find_populations PopAll w = (Ret [(0, 0)%Z], w)
  /\ [(0, 0)%Z] <> []
  /\ (forall k, k ∈ [(0, 0)%Z] ->
        exists cs,
          pops_get (_populations (self w)) k = Some cs
          /\ conn_map_sorted (heap w) (ConnectionSet._connections_map cs)
          /\ lacks_connection (heap w) cs 5 1)
  /\ exists w',
       disable (Some 5%Z) 1 false PopAll w = (Exc AttributeError, w')
       /\ _disabled_conns (self w') = _disabled_conns (self w)
       /\ heap w' = heap w.
Proof.
  cbv zeta.
  assert (Habsent : forall k, k ∈ [(0, 0)%Z] ->
    exists cs,
      pops_get (_populations (self (manager_with [(3, 1)]%Z))) k = Some cs
      /\ conn_map_sorted (heap (manager_with [(3, 1)]%Z))
           (ConnectionSet._connections_map cs)
      /\ lacks_connection (heap (manager_with [(3, 1)]%Z)) cs 5 1).
  { intros k ->%list_elem_of_singleton. eexists. split; [reflexivity|]. split.
    - repeat constructor. exists [3%Z]. split; [reflexivity|].
      repeat constructor.
    - intros conns r [= <-] ->%list_elem_of_singleton. discriminate. }
  split; [reflexivity|]. split; [discriminate|]. split; [exact Habsent|].
  apply (disable_absent_raises _ 5 1 false PopAll [(0, 0)%Z]);
    [reflexivity|discriminate|exact Habsent].
Defined.

(** C10, no population matched.  The manager has the population (0,0)
    only; the selector 7 matches none, so the pair (5,1) is absent from
    every matched population, and [disable] returns normally. *)
Lemma disable_unmatched_selector_returns :
  let w := manager_with [(3, 1)]%Z in
  find_populations (PopSrc 7) w = (Ret [], w)
  /\ disable (Some 5%Z) 1 false (PopSrc 7) w = (Ret tt, w).
Proof. cbv zeta. split; vm_compute; reflexivity. Qed.

(** C7 on the manager loaded from the example table, which holds (3,1),
    (5,1) and (7,1), for the pair (3,1). *)
Lemma disable_reenable_round_trip_witness :
  let w := loaded_manager in
  let targets := [((0, 0)%Z, 0)] in
  find_populations PopAll w = (Ret targets.*1, w)
  /\ populations_hold w 3 1 targets
  /\ (forall r, r ∈ targets.*2 -> disabled (deref (heap w) r) = false)
  /\ (forall r, r ∈ disabled_of (self w) 1 ->
        reenable_selects (self w) (heap w) (Some 3%Z) targets.*1 r = false)
  /\ exists w1 w2,
       disable (Some 3%Z) 1 false PopAll w = (Ret tt, w1)
       /\ _populations (self w1) = _populations (self w)
       /\ (forall r, r ∈ targets.*2 ->
             disabled (deref (heap w1) r) = true
             /\ r ∈ disabled_of (self w1) 1)
       /\ reenable (Some 3%Z) 1 PopAll w1 = (Ret tt, w2)
       /\ heap w2 = heap w
       /\ _populations (self w2) = _populations (self w)
       /\ disabled_of (self w2) 1 = disabled_of (self w) 1
       /\ connection_count (self w2) = connection_count (self w).
Proof.
  cbv zeta.
  assert (Hfind : find_populations PopAll loaded_manager
                  = (Ret [((0, 0)%Z, 0)].*1, loaded_manager)).
  { vm_compute. reflexivity. }
  assert (Hhold : populations_hold loaded_manager 3 1 [((0, 0)%Z, 0)]).
  { vm_compute. repeat constructor. eexists. split; [reflexivity|]. split_and!.
    - repeat constructor. exists [3%Z; 5%Z; 7%Z]. split; [reflexivity|].
      repeat constructor.
    - exists [0; 1; 2]. split_and!; [reflexivity|left|reflexivity].
    - reflexivity. }
  assert (Hen : forall r, r ∈ [((0, 0)%Z, 0)].*2 ->
            disabled (deref (heap loaded_manager) r) = false).
  { intros r ->%list_elem_of_singleton. vm_compute. reflexivity. }
  assert (Hclear : forall r,
            r ∈ disabled_of (self loaded_manager) 1 ->
            reenable_selects (self loaded_manager)
              (heap loaded_manager) (Some 3%Z)
              [((0, 0)%Z, 0)].*1 r = false).
  { intros r Hr. exfalso. vm_compute in Hr. by apply elem_of_nil in Hr. }
  split; [exact Hfind|]. split; [exact Hhold|]. split; [exact Hen|].
  split; [exact Hclear|].
  exact (disable_reenable_round_trip _ 3 1 false PopAll [((0, 0)%Z, 0)]
           Hfind Hhold Hen Hclear).
Defined.

(** C7, the set after [disable].  After [disable(3, 1)] the connection is
    in the disabled registry and also still in its connection set: the
    set lists it, finds it, and counts 3 connections as before, and so does
    the manager. *)
Lemma disable_keeps_connection_in_set :
  let w := loaded_manager in
  let w1 := (disable (Some 3%Z) 1 false PopAll w).2 in
  (disable (Some 3%Z) 1 false PopAll w).1 = Ret tt
  /\ disabled_of (self w1) 1 = [0]
  /\ all_connections (self w) = [0; 1; 2]
  /\ all_connections (self w1) = [0; 1; 2]
  /\ (in_population (0, 0)%Z (ConnectionSet.get_connection (Some 3%Z) 1) w1).1
     = Ret (Some 0)
  /\ (in_population (0, 0)%Z
        (cs <- ConnectionSet.get_self ;; mret (ConnectionSet.count cs)) w1).1
     = Ret 3%Z
  /\ connection_count (self w1) = 3%Z.
Proof. cbv zeta. split_and!; vm_compute; reflexivity. Qed.

(** With two populations of which one only holds (3,1), [disable(3, 1)]
    under the default selector disables the connection in the first and
    raises on the second; with the population given, it returns. *)
Example disable_raises_for_other_population :
  let w0 := manager_with [(3, 1)]%Z in
  let w := (select_populations 1 0 ;;;
            in_population (1, 0)%Z
              (ConnectionSet.get_or_create_connection (Some 4%Z) 1 no_kwargs) ;;;
            select_populations 0 0) w0 in
  let res := disable (Some 3%Z) 1 false PopAll w.2 in
  w.1 = Ret tt
  /\ find_populations PopAll w.2 = (Ret [(0, 0); (1, 0)]%Z, w.2)
  /\ res.1 = Exc AttributeError
  /\ disabled_of (self res.2) 1 = [0]
  /\ (disable (Some 3%Z) 1 false (PopPair (Some 0%Z) (Some 0%Z)) w.2).1 = Ret tt.
Proof. cbv zeta. split_and!; vm_compute; reflexivity. Qed.

(** C6, creation order.  With (5,1) created before (3,1), [finalize]
    visits the connection of source 5 first and the one of source 3
    second: the order in which they were created, which is not that order
    reversed. *)
Lemma finalize_visits_in_creation_order :
  let w := manager_with [(5, 1); (3, 1)]%Z in
  let conns := all_connections (self w) in
  map (sgid_of (heap w)) (creation_order conns) = [Some 5%Z; Some 3%Z]
  /\ instantiated
       (finalize (SynapseRuleManager._finalize_conns example_env) 0 false []
          w).2
     = creation_order conns
  /\ creation_order conns <> reverse (creation_order conns).
Proof. cbv zeta. split_and!; [reflexivity|reflexivity|discriminate]. Qed.

(** *** Example data *)

(** C8 on the rules [(All -> All, 2.0); (A -> B, 0.0)] with the
    projection from [A] as current population: the second rule alone
    matches. *)
Lemma create_connections_single_zero_weight_witness :
  pops_get (_populations (self projection_manager))
    (_cur_population (self projection_manager)) = Some projection_A
  /\ List.filter
       (fun conn =>
          TargetSpec_match_filter rules_env (Source conn)
            (ConnectionSet.src_name projection_A) None
            (ConnectionSet.src_id projection_A =? 0)%Z)
       example_rules = [example_rule "A:All" "B:All" 0%float]
  /\ PrimFloat.eqb
       (Map_valueOf_Weight rules_env (example_rule "A:All" "B:All" 0%float))
       0%float = true
  /\ create_connections rules_env example_rules None projection_manager
     = (Ret tt, projection_manager).
Proof.
  split; [reflexivity|]. split; [reflexivity|]. split; [reflexivity|].
  apply (create_connections_single_zero_weight rules_env example_rules None
           projection_manager projection_A
           (example_rule "A:All" "B:All" 0%float)); reflexivity.
Defined.

(** Without the zero-weight rule the same call creates connections. *)
Example create_connections_nonzero_creates :
  connection_count
    (self (create_connections rules_env
             [example_rule "A:All" "B:All" 2%float] None
             projection_manager).2) = 3%Z.
Proof. reflexivity. Qed.

(** [connect_all] on the example table creates the connections (3,1),
    (5,1) and (7,1) with 3, 2 and 1 synapses. *)
Example loaded_manager_connections :
  conn_pairs (heap loaded_manager) (all_connections (self loaded_manager))
  = [(Some 3, 1); (Some 5, 1); (Some 7, 1)]%Z
  /\ map (fun c => length (synapses c)) (heap loaded_manager) = [3; 2; 1]
  /\ connection_count (self loaded_manager) = 3%Z.
Proof. split_and!; vm_compute; reflexivity. Qed.

(** A second [connect_group] over the same pathway adds nothing. *)
Example connect_group_twice :
  let w1 := (connect_group example_env "All" "All" None example_manager).2 in
  let w2 := (connect_group example_env "All" "All" None w1).2 in
  map (fun c => (length (synapses c), locked c)) (heap w1)
  = [(3, true); (2, true); (1, true)]
  /\ heap w2 = heap w1.
Proof. cbv zeta. split; vm_compute; reflexivity. Qed.

(** C5 on one creation order of the four connections. *)
Lemma delete_group_example_witness :
  [(5, 2); (3, 1); (7, 2); (5, 1)]%Z ≡ₚ [(3, 1); (5, 1); (5, 2); (7, 2)]%Z
  /\ delete_group_example_holds [(5, 2); (3, 1); (7, 2); (5, 1)]%Z.
Proof.
  assert (Hp : [(5, 2); (3, 1); (7, 2); (5, 1)]%Z
               ≡ₚ [(3, 1); (5, 1); (5, 2); (7, 2)]%Z).
  { apply (bool_decide_unpack _). vm_compute. exact I. }
  split; [exact Hp|]. apply delete_group_example. exact Hp.
Defined.
